(** * shutdown-if-idle: a shallow embedding of [shutdown_if_no_usage.py]

    The script decides, once per invocation, whether the host is idle (no
    job marker left in the tracking directory and the quiet period over)
    and whether shutting it down now saves money under the provider's
    billing granularity.

    Conventions of the embedding:
    - Python [int] is [Z]; a finite Python [float] is the rational [Q] it
      stands for. The two divisions of the billing evaluator, the
      conversion of an [int] to a float and the reading of a float
      literal round their exact result to the nearest IEEE double
      ([round_double]) and overflow beyond the largest one; the clock and
      the modification times are rationals as given and their difference
      is exact. [int(x)] of a float truncates toward zero ([Z.quot]);
      [math.floor] returns an [int], the [Qfloor] of its argument.
    - Exceptions are values of [exn]; effectful functions run in the monad
      [M A := world -> result A * world], whose state survives a raise.
    - The file system is a finite map from paths to files; a path is the
      pair of a directory and an entry name, which is what [os.path.join]
      builds from the tracking directory and a directory entry.
    - Calls of the logger and of [/sbin/shutdown] are recorded, in order,
      in the trace of the world. *)

From Stdlib Require Import ZArith QArith Qround Ascii.
From stdpp Require Import gmap strings list fin_maps.

Local Open Scope Z_scope.

(** ** The Python runtime the script relies on

    Strings are byte strings as in Python 2, which the script targets with
    [from __future__ import division]: [readline] ends a line at a line
    feed only, [split] knows the six ASCII white-space characters, and the
    literals of [int] and [float] have no digit separators. [open] raises
    [IOError] and the [os] functions raise [OSError]; the two are told
    apart only by the handler around [os.listdir], which runs no [open].
    Under that import [/] is true division in both major versions of
    Python; [math.floor] gives a float in Python 2 and an [int] in
    Python 3, and the embedding takes the [int]. *)

Module Py.

Inductive exn : Set :=
  | OSError | IOError | ValueError | IndexError | OverflowError | KeyError
  | ZeroDivisionError.

Inductive result (A : Type) : Type :=
  | Ok (a : A)
  | Raise (e : exn).
Arguments Ok {A} a.
Arguments Raise {A} e.

Definition result_bind {A B} (r : result A) (f : A -> result B) : result B :=
  match r with
  | Ok a => f a
  | Raise e => Raise e
  end.

(** Floats: a finite value is the rational that the double stands for. *)
Inductive pyfloat : Set :=
  | Finite (q : Q)
  | Infinite
  | NaN.

(** *** Rounding to a double

    Every finite double is a multiple of 2^-1074, so a double is given by
    its numerator over that denominator. A double of binary exponent [E]
    is a multiple of [2^(E - 52)] of these units, and of one unit in the
    subnormal range. *)

(** The integer nearest to [a / b], ties to the even one. *)
Definition round_half_even (a b : Z) : Z :=
  let f := a / b in
  match 2 * (a mod b) ?= b with
  | Lt => f
  | Gt => f + 1
  | Eq => if Z.even f then f else f + 1
  end.

(** The numerator over 2^1074 of the double nearest to [n / d], for
    [0 <= n] and [0 < d]. *)
Definition round_grid (n d : Z) : Z :=
  let N := n * 2 ^ 1074 in
  let E := Z.log2 (N / d) in
  let S := Z.max E 52 - 52 in
  round_half_even N (d * 2 ^ S) * 2 ^ S.

(** The double nearest to [q]; [None] when that is beyond the largest
    double, which rounds to 2^1024 and does not exist. *)
Definition round_double (q : Q) : option Q :=
  let g := round_grid (Z.abs (Qnum q)) (Zpos (Qden q)) in
  if 2 ^ 2098 <=? g then None
  else Some (Qred (Z.sgn (Qnum q) * g # 2 ^ 1074)).

(** A float operation whose exact result is [q]: overflow gives an
    infinity. *)
Definition float_of_Q (q : Q) : pyfloat :=
  match round_double q with
  | Some v => Finite v
  | None => Infinite
  end.

(** [float(n)] for an [int], also where an [int] meets a float in an
    arithmetic operation. *)
Definition float_of_int (n : Z) : result Q :=
  match round_double (inject_Z n) with
  | Some v => Ok v
  | None => Raise OverflowError
  end.

(** [a / b] for two [int]s under true division: the correctly rounded
    quotient. *)
Definition int_truediv (a b : Z) : result Q :=
  if b =? 0 then Raise ZeroDivisionError
  else match round_double (inject_Z a / inject_Z b) with
       | Some v => Ok v
       | None => Raise OverflowError
       end.

(** [x / n] for a finite float and an [int]. *)
Definition float_truediv_int (x : Q) (n : Z) : result pyfloat :=
  result_bind (float_of_int n) (fun y =>
    if Qeq_bool y 0 then Raise ZeroDivisionError
    else Ok (float_of_Q (x / y))).

(** [math.floor(x)]. *)
Definition math_floor (x : pyfloat) : result Z :=
  match x with
  | Finite q => Ok (Qfloor q)
  | Infinite => Raise OverflowError
  | NaN => Raise ValueError
  end.

(** [int(x)] for a finite float: truncation toward zero. *)
Definition int_of_Q (q : Q) : Z := Z.quot (Qnum q) (Zpos (Qden q)).

(** [int(x)] for a float; infinities and NaN cannot be converted. *)
Definition int_of_float (x : pyfloat) : result Z :=
  match x with
  | Finite q => Ok (int_of_Q q)
  | Infinite => Raise OverflowError
  | NaN => Raise ValueError
  end.

(** *** Characters and strings *)

Definition code (c : ascii) : Z := Z.of_nat (nat_of_ascii c).

(** The whitespace of [str.split()]: space, [\t], [\n], [\v], [\f], [\r]. *)
Definition isspace (c : ascii) : bool :=
  (code c =? 32) || ((9 <=? code c) && (code c <=? 13)).

Definition isdigit (c : ascii) : bool := (48 <=? code c) && (code c <=? 57).

Definition lower (c : ascii) : ascii :=
  if (65 <=? code c) && (code c <=? 90)
  then ascii_of_nat (nat_of_ascii c + 32) else c.

Fixpoint lower_str (s : string) : string :=
  match s with
  | EmptyString => EmptyString
  | String c s' => String (lower c) (lower_str s')
  end.

(** [f.readline()] on the content of a file just opened: everything up to
    and including the first newline. *)
Fixpoint readline (s : string) : string :=
  match s with
  | EmptyString => EmptyString
  | String c s' =>
      if code c =? 10 then String c EmptyString else String c (readline s')
  end.

(** [s.split()]: the maximal runs of non-whitespace characters. [tok] is
    the run being read. *)
Fixpoint split_from (tok s : string) : list string :=
  match s with
  | EmptyString => if String.eqb tok "" then [] else [tok]
  | String c s' =>
      if isspace c
      then (if String.eqb tok "" then split_from "" s'
            else tok :: split_from "" s')
      else split_from (tok +:+ String c "") s'
  end.

Definition split (s : string) : list string := split_from "" s.

(** [l[0]]. *)
Definition first {A} (l : list A) : result A :=
  match l with
  | [] => Raise IndexError
  | x :: _ => Ok x
  end.

(** [s.endswith(suffix)]. *)
Definition endswith (s suffix : string) : bool :=
  let n := String.length s in
  let m := String.length suffix in
  (m <=? n)%nat && String.eqb (String.substring (n - m) m s) suffix.

(** [s.rfind(c)] for a single character: the last index of [c], or -1. *)
Fixpoint rfind_from (c : ascii) (s : string) (i last : Z) : Z :=
  match s with
  | EmptyString => last
  | String d s' => rfind_from c s' (i + 1) (if Ascii.eqb d c then i else last)
  end.

Definition rfind (c : ascii) (s : string) : Z := rfind_from c s 0 (-1).

Fixpoint existsb_str (f : ascii -> bool) (s : string) : bool :=
  match s with
  | EmptyString => false
  | String c s' => f c || existsb_str f s'
  end.

Fixpoint forallb_str (f : ascii -> bool) (s : string) : bool :=
  match s with
  | EmptyString => true
  | String c s' => f c && forallb_str f s'
  end.

(** [os.path.splitext(p)] (posixpath): split at the last dot of the last
    component, unless that component has only dots before it. The loop of
    [genericpath._splitext] that looks for a character other than a dot
    between the separator and the last dot is the [existsb_str] here. *)
Definition splitext (p : string) : string * string :=
  let sepIndex := rfind "/" p in
  let dotIndex := rfind "." p in
  if (sepIndex <? dotIndex) &&
     existsb_str (fun c => negb (Ascii.eqb c "."))
       (String.substring (Z.to_nat (sepIndex + 1))
          (Z.to_nat (dotIndex - sepIndex - 1)) p)
  then (String.substring 0 (Z.to_nat dotIndex) p,
        String.substring (Z.to_nat dotIndex)
          (String.length p - Z.to_nat dotIndex) p)
  else (p, "").

(** [s.rstrip('/')]. *)
Fixpoint rstrip_slash (s : string) : string :=
  match s with
  | EmptyString => EmptyString
  | String c s' =>
      let r := rstrip_slash s' in
      if Ascii.eqb c "/" && String.eqb r "" then "" else String c r
  end.

(** [os.path.split(p)] (posixpath): the part up to the last slash, without
    its trailing slashes unless it has nothing else, and the part after
    it. *)
Definition posixpath_split (p : string) : string * string :=
  let i := Z.to_nat (rfind "/" p + 1) in
  let head := String.substring 0 i p in
  let tail := String.substring i (String.length p - i) p in
  (if forallb_str (fun c => Ascii.eqb c "/") head then head
   else rstrip_slash head,
   tail).

(** *** Reading numbers *)

(** The longest prefix of decimal digits, most significant first, and the
    rest of the string. *)
Fixpoint span_digits (s : string) : list Z * string :=
  match s with
  | EmptyString => ([], EmptyString)
  | String c s' =>
      if isdigit c
      then let '(ds, rest) := span_digits s' in ((code c - 48) :: ds, rest)
      else ([], s)
  end.

Definition digits_value (ds : list Z) : Z :=
  fold_left (fun acc d => 10 * acc + d) ds 0.

(** An optional sign: whether it is a minus, and the rest. *)
Definition take_sign (s : string) : bool * string :=
  match s with
  | String "-" s' => (true, s')
  | String "+" s' => (false, s')
  | _ => (false, s)
  end.

Fixpoint lstrip (s : string) : string :=
  match s with
  | EmptyString => EmptyString
  | String c s' => if isspace c then lstrip s' else s
  end.

(** [int(s)] for a string: optional surrounding whitespace, an optional
    sign, one or more decimal digits. *)
Definition int_of_string (s : string) : result Z :=
  let '(neg, s1) := take_sign (lstrip s) in
  let '(ds, rest) := span_digits s1 in
  match ds with
  | [] => Raise ValueError
  | _ => if forallb_str isspace rest
         then Ok (if neg then - digits_value ds else digits_value ds)
         else Raise ValueError
  end.

(** The exponent part of a float literal: empty, or [e]/[E], an optional
    sign and one or more digits up to the end of the token. *)
Definition exponent_part (s : string) : option Z :=
  match s with
  | EmptyString => Some 0
  | String c s' =>
      if Ascii.eqb (lower c) "e"
      then let '(neg, s1) := take_sign s' in
           let '(ds, rest) := span_digits s1 in
           match ds, rest with
           | _ :: _, EmptyString =>
               Some (if neg then - digits_value ds else digits_value ds)
           | _, _ => None
           end
      else None
  end.

(** [float(tok)] for a token without surrounding whitespace: an optional
    sign, then [inf], [infinity], [nan] (in any case) or a decimal literal
    with at least one digit in its mantissa and an optional exponent. The
    value of the literal is rounded to the nearest double. *)
Definition float_of_string (tok : string) : result pyfloat :=
  let '(neg, s1) := take_sign tok in
  let word := lower_str s1 in
  if String.eqb word "inf" || String.eqb word "infinity" then Ok Infinite
  else if String.eqb word "nan" then Ok NaN
  else
    let '(ip, s2) := span_digits s1 in
    let '(fp, s3) :=
      match s2 with
      | String "." s2' => span_digits s2'
      | _ => ([], s2)
      end in
    match ip ++ fp, exponent_part s3 with
    | _ :: _, Some e =>
        let mantissa := digits_value (ip ++ fp) in
        let q := (inject_Z mantissa *
                  Qpower (inject_Z 10) (e - Z.of_nat (length fp)))%Q in
        Ok (float_of_Q (if neg then Qopp q else q))
    | _, _ => Raise ValueError
    end.

(** [float(f.readline().split()[0])], on the content of the file. *)
Definition first_token_float (content : string) : result pyfloat :=
  result_bind (first (split (readline content))) float_of_string.

End Py.
Export Py.

(** ** The operating system the script talks to *)

Module Os.

(** A marker file: its text and its last-modified time. *)
Record file : Type := { f_body : string; f_mtime : Q }.

(** [os.path.join(directory, entry)] for an entry name of that directory. *)
Definition path : Type := string * string.

Definition os_path_join (directory entry : string) : path := (directory, entry).

Inductive level : Set := DEBUG | INFO | CRITICAL.

(** What the outside can observe of a run: the logger calls (level and
    format string) and the call of [/sbin/shutdown]. *)
Inductive event : Set :=
  | Log (lvl : level) (msg : string)
  | Shutdown.

Record world : Type := {
  w_dirs : gset string;                  (* the directories that exist *)
  w_files : gmap (string * string) file; (* the files, by path *)
  w_writable : bool;     (* creating, writing and deleting are permitted *)
  w_listable : bool;     (* listing a directory is permitted *)
  w_now : Q;                             (* [time.time()] *)
  w_proc_uptime : option string;         (* content of [/proc/uptime] *)
  w_trace : list event                   (* oldest event first *)
}.

Definition set_files (fs : gmap (string * string) file) (w : world) : world :=
  {| w_dirs := w_dirs w; w_files := fs; w_writable := w_writable w;
     w_listable := w_listable w; w_now := w_now w;
     w_proc_uptime := w_proc_uptime w; w_trace := w_trace w |}.

Definition set_dirs (ds : gset string) (w : world) : world :=
  {| w_dirs := ds; w_files := w_files w; w_writable := w_writable w;
     w_listable := w_listable w; w_now := w_now w;
     w_proc_uptime := w_proc_uptime w; w_trace := w_trace w |}.

Definition add_event (e : event) (w : world) : world :=
  {| w_dirs := w_dirs w; w_files := w_files w; w_writable := w_writable w;
     w_listable := w_listable w; w_now := w_now w;
     w_proc_uptime := w_proc_uptime w; w_trace := w_trace w ++ [e] |}.

(** *** The monad of effectful code *)

Definition M (A : Type) : Type := world -> result A * world.

Definition ret {A} (a : A) : M A := fun w => (Ok a, w).

Definition raise {A} (e : exn) : M A := fun w => (Raise e, w).

Definition bind {A B} (m : M A) (f : A -> M B) : M B :=
  fun w =>
    match m w with
    | (Ok a, w') => f a w'
    | (Raise e, w') => (Raise e, w')
    end.

(** A pure computation that may raise. *)
Definition lift {A} (r : result A) : M A := fun w => (r, w).

(** [try: m  except OSError: handler]. *)
Definition try_except_OSError {A} (m handler : M A) : M A :=
  fun w =>
    match m w with
    | (Raise OSError, w') => handler w'
    | r => r
    end.

(** [for x in l: body(x)]. *)
Fixpoint for_each {A} (l : list A) (body : A -> M unit) : M unit :=
  match l with
  | [] => ret tt
  | x :: l' => bind (body x) (fun _ => for_each l' body)
  end.

(** *** System calls *)

Definition os_path_isdir (d : string) : M bool :=
  fun w => (Ok (bool_decide (d ∈ w_dirs w)), w).

(** The parents that [os.makedirs(name)] creates before [name] itself,
    outermost first: it splits off the last component, skipping a trailing
    slash, and calls itself on the head as long as the head does not
    exist. Every call works on a shorter name, so the length of the first
    name bounds the depth of the recursion; [fuel] is that bound. *)
Fixpoint makedirs_parents (fuel : nat) (name : string) (ds : gset string)
    : list string :=
  match fuel with
  | O => []
  | S fuel' =>
      let '(head, tail) := posixpath_split name in
      let '(head, tail) :=
        if String.eqb tail "" then posixpath_split head else (head, tail) in
      if negb (String.eqb head "") && negb (String.eqb tail "") &&
         negb (bool_decide (head ∈ ds))
      then makedirs_parents fuel' head ds ++ [head]
      else []
  end.

(** The directories after [os.makedirs(name)] has succeeded. *)
Definition makedirs_dirs (name : string) (ds : gset string) : gset string :=
  {[name]} ∪ list_to_set (makedirs_parents (String.length name) name ds) ∪ ds.

(** [os.makedirs]: fails when the directory exists or cannot be created;
    creates the directory and every missing parent. Afterwards [d] names
    a directory, also where its last component is [.] and the call leaves
    after creating the parents. *)
Definition os_makedirs (d : string) : M unit :=
  fun w =>
    if bool_decide (d ∈ w_dirs w) then (Raise OSError, w)
    else if w_writable w
    then (Ok tt, set_dirs (makedirs_dirs d (w_dirs w)) w)
    else (Raise OSError, w).

(** The entries of a directory, in the order of the file map. *)
Definition entries (d : string) (fs : gmap (string * string) file) : list string :=
  omap (fun pf : (string * string) * file =>
          if decide (pf.1.1 = d) then Some pf.1.2 else None)
       (map_to_list fs).

Definition os_listdir (d : string) : M (list string) :=
  fun w =>
    if bool_decide (d ∈ w_dirs w) && w_listable w
    then (Ok (entries d (w_files w)), w)
    else (Raise OSError, w).

Definition os_path_getmtime (p : path) : M Q :=
  fun w =>
    match w_files w !! p with
    | Some f => (Ok (f_mtime f), w)
    | None => (Raise OSError, w)
    end.

Definition time_time : M Q := fun w => (Ok (w_now w), w).

(** [with open(p, 'r') as f]: the content of the file. *)
Definition open_read (p : path) : M string :=
  fun w =>
    match w_files w !! p with
    | Some f => (Ok (f_body f), w)
    | None => (Raise IOError, w)
    end.

(** [with open(p, 'w') as f: f.write(body)]: creates or replaces the file;
    needs the directory and the permission. *)
Definition open_write (p : path) (body : string) : M unit :=
  fun w =>
    if bool_decide (p.1 ∈ w_dirs w) && w_writable w
    then (Ok tt,
          set_files (<[p := {| f_body := body; f_mtime := w_now w |}]> (w_files w)) w)
    else (Raise IOError, w).

(** [os.remove]: fails when the file is not there or cannot be deleted. *)
Definition os_remove (p : path) : M unit :=
  fun w =>
    match w_files w !! p with
    | Some _ =>
        if w_writable w then (Ok tt, set_files (delete p (w_files w)) w)
        else (Raise OSError, w)
    | None => (Raise OSError, w)
    end.

(** [with open('/proc/uptime', 'r') as f]. *)
Definition open_proc_uptime : M string :=
  fun w =>
    match w_proc_uptime w with
    | Some s => (Ok s, w)
    | None => (Raise IOError, w)
    end.

(** [os.system('/sbin/shutdown -h now ...')]. *)
Definition os_system_shutdown : M unit := fun w => (Ok tt, add_event Shutdown w).

Definition log (lvl : level) (msg : string) : M unit :=
  fun w => (Ok tt, add_event (Log lvl msg) w).

End Os.
Export Os.

(** stdpp's monad notations [x ← m; k] and [m;; k] for [M]. *)
#[global] Instance M_ret : MRet M := @ret.
#[global] Instance M_bind : MBind M := fun A B f m => bind m f.

(** ** The script *)

Definition IDLE_QUIET_JOB_NAME : string := "_idle_quiet_timer".

Definition JOB_FILE_EXTENSION : string := ".log".

(** The named tuple [Jobs]. *)
Record Jobs : Type := {
  name : string;
  seconds_running : Z;
  timeout_threshold_minutes : Z;
  file_path : path
}.

Definition _file_name_from_job_name (tracking_dir job_name : string) : path :=
  os_path_join tracking_dir (job_name +:+ JOB_FILE_EXTENSION).

Definition create_tracking_dir (tracking_dir : string) : M unit :=
  os_makedirs tracking_dir.

Definition _build_job_from_fp (tracking_dir job_filepath : string) : M Jobs :=
  let filepath := os_path_join tracking_dir job_filepath in
  last_modified_time ← os_path_getmtime filepath;
  now ← time_time;
  let seconds_running := (now - last_modified_time)%Q in
  content ← open_read filepath;
  timeout_minutes ← lift (first_token_float content);
  let job_name := (splitext job_filepath).1 in
  timeout_threshold ← lift (int_of_float timeout_minutes);
  mret {| name := job_name;
          seconds_running := int_of_Q seconds_running;
          timeout_threshold_minutes := timeout_threshold;
          file_path := filepath |}.

(** The [for job_filepath in job_files] loop of [build_jobs_from_dir];
    [jobs] is the list built so far. *)
Fixpoint build_jobs_loop (tracking_dir : string) (job_files : list string)
    (jobs : list Jobs) : M (list Jobs) :=
  match job_files with
  | [] => mret jobs
  | job_filepath :: rest =>
      if negb (endswith job_filepath JOB_FILE_EXTENSION)
      then log INFO "File doesn't end with %s, skpping: %s";;
           build_jobs_loop tracking_dir rest jobs
      else log DEBUG "Parsing job for: %s";;
           job ← _build_job_from_fp tracking_dir job_filepath;
           build_jobs_loop tracking_dir rest (jobs ++ [job])
  end.

Definition build_jobs_from_dir (tracking_dir : string) : M (list Jobs) :=
  is_dir ← os_path_isdir tracking_dir;
  (if negb is_dir then create_tracking_dir tracking_dir else mret tt);;
  job_files ← try_except_OSError
                (os_listdir tracking_dir)
                (log CRITICAL "Problem reading the job-tracking directory: '%s'";;
                 mret []);
  build_jobs_loop tracking_dir job_files [].

Definition still_running (job : Jobs) : bool :=
  seconds_running job <? timeout_threshold_minutes job * 60.

Definition timed_out (job : Jobs) : bool :=
  seconds_running job >=? timeout_threshold_minutes job * 60.

(** The [for job in jobs_to_terminate] loop of [remove_timed_out_jobs]. *)
Definition reap_loop (jobs_to_terminate : list Jobs) : M unit :=
  for_each jobs_to_terminate
    (fun job => log INFO "Job '%s' timed out after %s seconds";;
                os_remove (file_path job)).

Definition remove_timed_out_jobs (jobs : list Jobs) : M (list Jobs) :=
  let running_jobs := List.filter still_running jobs in
  let jobs_to_terminate := List.filter timed_out jobs in
  for_each running_jobs
    (fun job => log INFO "Job '%s' still running after %s seconds");;
  reap_loop jobs_to_terminate;;
  mret running_jobs.

(** The search loop of [is_machine_idle], which leaves at the first job
    that has the reserved name. *)
Definition in_quiet_period (jobs : list Jobs) : bool :=
  existsb (fun job => String.eqb (name job) IDLE_QUIET_JOB_NAME) jobs.

Definition is_machine_idle (jobs : list Jobs)
    (idle_quiet_period tracking_dir : string) : M bool :=
  let were_in_quiet_period := in_quiet_period jobs in
  (if were_in_quiet_period
   then log INFO "Previously in the quiet period" else mret tt);;
  running_jobs ← remove_timed_out_jobs jobs;
  match running_jobs with
  | _ :: _ => log INFO "%s jobs still running. Not idle.";; mret false
  | [] =>
      if were_in_quiet_period
      then log INFO "No jobs running and quiet period ended. Idle.";; mret true
      else log INFO "Starting the quiet period. Not yet idle.";;
           let idle_job_fp :=
             _file_name_from_job_name tracking_dir IDLE_QUIET_JOB_NAME in
           open_write idle_job_fp idle_quiet_period;;
           mret false
  end.

(** The nested helper [already_paid_from_boot] closes over
    [safe_uptime_seconds], [shutdown_safety_seconds] and
    [paid_on_boot_minutes]; here they are its arguments. *)
Definition already_paid_from_boot
    (safe_uptime_seconds shutdown_safety_seconds paid_on_boot_minutes : Z)
    : M bool :=
  let seconds_to_pay := safe_uptime_seconds + shutdown_safety_seconds in
  let seconds_already_paid := paid_on_boot_minutes * 60 in
  let paid_seconds_left := seconds_already_paid - seconds_to_pay in
  if 0 <? paid_seconds_left
  then log DEBUG "%s seconds of paid time left.";; mret true
  else mret false.

(** [shutdown_saves_money] on integer arguments, as [main] calls it. Under
    [from __future__ import division] both divisions are true divisions:
    the first, of two [int]s, is done before anything else and raises
    [OverflowError] when the quotient is beyond the doubles. *)
Definition shutdown_saves_money
    (uptime_seconds paid_on_boot_minutes payment_chunk_minutes
     shutdown_safety_margin : Z) : M bool :=
  let shutdown_safety_seconds := shutdown_safety_margin * 60 in
  let safe_uptime_seconds := uptime_seconds + shutdown_safety_seconds in
  safe_uptime_minutes ← lift (int_truediv safe_uptime_seconds 60);
  paid ← already_paid_from_boot safe_uptime_seconds shutdown_safety_seconds
           paid_on_boot_minutes;
  if paid : bool
  then log INFO "Idle, but we paid for this time on boot.";; mret false
  else if payment_chunk_minutes <=? 2 then mret true
  else
    chunks_paid ← lift (result_bind
                          (float_truediv_int safe_uptime_minutes
                             payment_chunk_minutes)
                          math_floor);
    log DEBUG "Already paid %s chunks";;
    let next_chunk_uptime_seconds :=
      (chunks_paid + 1) * payment_chunk_minutes * 60 in
    log DEBUG "Current uptime seconds: %s";;
    log DEBUG "Next payment chunk: %s";;
    let seconds_until_next_chunk :=
      next_chunk_uptime_seconds - safe_uptime_seconds in
    if seconds_until_next_chunk <=? shutdown_safety_seconds
    then log INFO "Only %s paid seconds left. Recommending shutdown.";;
         mret true
    else mret false.

Definition get_uptime_seconds : M Z :=
  content ← open_proc_uptime;
  uptime_seconds ← lift (first_token_float content);
  lift (int_of_float uptime_seconds).

Definition trigger_shutdown : M unit := os_system_shutdown.

(** [options[key]] on the dictionary of options. *)
Definition getitem (options : gmap string string) (key : string) : M string :=
  match options !! key with
  | Some v => ret v
  | None => raise KeyError
  end.

(** [int(options[key])]. *)
Definition int_option (options : gmap string string) (key : string) : M Z :=
  v ← getitem options key;
  lift (int_of_string v).

Definition main (options : gmap string string) : M unit :=
  tracking_dir ← getitem options "JOB_TRACKING_DIR";
  jobs ← build_jobs_from_dir tracking_dir;
  idle_quiet_period ← getitem options "IDLE_QUIET_MINUTES";
  tracking_dir ← getitem options "JOB_TRACKING_DIR";
  is_idle ← is_machine_idle jobs idle_quiet_period tracking_dir;
  if is_idle : bool
  then
    uptime_seconds ← get_uptime_seconds;
    paid_on_boot_minutes ← int_option options "PAID_ON_BOOT_MINUTES";
    payment_chunk_minutes ← int_option options "MINIMUM_PAYMENT_CHUNK_MINUTES";
    shutdown_safety_margin ← int_option options "SHUTDOWN_SAFETY_MARGIN_MINUTES";
    saves_money ← shutdown_saves_money uptime_seconds paid_on_boot_minutes
                    payment_chunk_minutes shutdown_safety_margin;
    if saves_money : bool
    then log CRITICAL "Money-saving idle period reached. Shutting down.";;
         trigger_shutdown
    else log INFO "Shutdown does not save money"
  else ret tt.

(** The defaults of [entry_point] when the environment sets nothing. *)
Definition DEFAULTS : gmap string string :=
  <["JOB_TRACKING_DIR" := "/tmp/idle-tracking/"]>
  (<["PAID_ON_BOOT_MINUTES" := "60"]>
  (<["MINIMUM_PAYMENT_CHUNK_MINUTES" := "60"]>
  (<["SHUTDOWN_SAFETY_MARGIN_MINUTES" := "2"]>
  (<["IDLE_QUIET_MINUTES" := "2"]> ∅)))).

(** The loop of [entry_point] over [DEFAULTS.items()]: each option is the
    value of the environment variable of that name when it is set, and
    the default otherwise. *)
Definition options_from_environ (environ : gmap string string)
    : gmap string string :=
  map_imap
    (fun name default_value => Some (default default_value (environ !! name)))
    DEFAULTS.

(** [entry_point], for the process environment [environ]. The set-up of
    the logger (level and handler) decides which of the recorded logger
    calls reach the console; it has no part in the trace. *)
Definition entry_point (environ : gmap string string) : M unit :=
  main (options_from_environ environ).

(** A world with the given directories and files and every permission. *)
Definition mk_world (dirs : list string) (files : list (path * file))
    (now : Q) (uptime : option string) : world :=
  {| w_dirs := list_to_set dirs; w_files := list_to_map files;
     w_writable := true; w_listable := true; w_now := now;
     w_proc_uptime := uptime; w_trace := [] |}.

(** Two worlds that differ at most in their trace. *)
Definition same_system (w w' : world) : Prop :=
  w_dirs w' = w_dirs w /\ w_files w' = w_files w /\
  w_writable w' = w_writable w /\ w_listable w' = w_listable w /\
  w_now w' = w_now w /\ w_proc_uptime w' = w_proc_uptime w.

(** The file map after deleting the markers of [jobs], first job first. *)
Definition files_without (jobs : list Jobs)
    (fs : gmap (string * string) file) : gmap (string * string) file :=
  fold_left (fun acc job => delete (file_path job) acc) jobs fs.

(** The trace of [w'] extends the trace of [w] without a shutdown. *)
Definition calm (w w' : world) : Prop :=
  exists evs, w_trace w' = w_trace w ++ evs /\ Shutdown ∉ evs.

(** The directory entries that the scan takes for markers. *)
Definition is_marker (entry : string) : bool :=
  endswith entry JOB_FILE_EXTENSION.

(** The marker file of the quiet period. *)
Definition quiet_timer_path (tracking_dir : string) : path :=
  _file_name_from_job_name tracking_dir IDLE_QUIET_JOB_NAME.

(** The world after the three debug calls of the chunk computation of
    [shutdown_saves_money]. *)
Definition chunk_logged (w : world) : world :=
  add_event (Log DEBUG "Next payment chunk: %s")
    (add_event (Log DEBUG "Current uptime seconds: %s")
       (add_event (Log DEBUG "Already paid %s chunks") w)).

(** ** Sample worlds *)

Definition sample_dir : string := "/tmp/idle-tracking/".

Definition marker (entry body : string) (mtime : Q) : path * file :=
  (os_path_join sample_dir entry, {| f_body := body; f_mtime := mtime |}).

(** Two jobs at time 130: [backup] started 30 seconds ago with a timeout of
    five minutes, [import] 120 seconds ago with a timeout of one minute. *)
Definition sample_world : world :=
  mk_world [sample_dir]
    [marker "backup.log" "5" 100%Q; marker "import.log" "1" 10%Q]
    130%Q (Some "3360.25 1200.50").

Definition sample_jobs : list Jobs :=
  [ {| name := "backup"; seconds_running := 30;
       timeout_threshold_minutes := 5;
       file_path := os_path_join sample_dir "backup.log" |};
    {| name := "import"; seconds_running := 120;
       timeout_threshold_minutes := 1;
       file_path := os_path_join sample_dir "import.log" |} ].

(** A marker whose first token is not a number, next to a good one. *)
Definition bad_marker_world : world :=
  mk_world [sample_dir]
    [marker "backup.log" "5" 100%Q; marker "broken.log" "soon" 100%Q]
    130%Q None.

(** A marker modified five seconds after the current clock. *)
Definition skewed_world : world :=
  mk_world [sample_dir] [marker "backup.log" "5" 105%Q] 100%Q None.

(** No tracking directory, and none can be created. *)
Definition readonly_world : world :=
  {| w_dirs := ∅; w_files := ∅; w_writable := false; w_listable := true;
     w_now := 130%Q; w_proc_uptime := None; w_trace := [] |}.

(** The quiet timer of two minutes, 120 seconds old, as the only marker,
    on a host that has been up for 56 minutes. *)
Definition quiet_world : world :=
  mk_world [sample_dir] [marker "_idle_quiet_timer.log" "2" 10%Q]
    130%Q (Some "3360.25 1200.50").

Definition quiet_jobs : list Jobs :=
  [ {| name := "_idle_quiet_timer"; seconds_running := 120;
       timeout_threshold_minutes := 2;
       file_path := os_path_join sample_dir "_idle_quiet_timer.log" |} ].

(** What a run of [main] with the default options adds to the trace of
    [quiet_world]. *)
Definition quiet_run_events : list event :=
  [Log DEBUG "Parsing job for: %s";
   Log INFO "Previously in the quiet period";
   Log INFO "Job '%s' timed out after %s seconds";
   Log INFO "No jobs running and quiet period ended. Idle.";
   Log DEBUG "Already paid %s chunks";
   Log DEBUG "Current uptime seconds: %s";
   Log DEBUG "Next payment chunk: %s";
   Log INFO "Only %s paid seconds left. Recommending shutdown.";
   Log CRITICAL "Money-saving idle period reached. Shutting down.";
   Shutdown].




(** A job that has finished and removed its marker after the scan, and
    the expired job of [sample_world]. *)
Definition finished_job : Jobs :=
  {| name := "report"; seconds_running := 120;
     timeout_threshold_minutes := 1;
     file_path := os_path_join sample_dir "report.log" |}.

Definition import_job : Jobs :=
  {| name := "import"; seconds_running := 120;
     timeout_threshold_minutes := 1;
     file_path := os_path_join sample_dir "import.log" |}.


(** The tracking directory without any marker, at time 10. *)
Definition empty_dir_world : world := mk_world [sample_dir] [] 10%Q None.

(** * Properties *)

(** ** Running the monad *)

Lemma run_bind {A B} (m : M A) (f : A -> M B) (w : world) :
  (m ≫= f) w =
  match m w with
  | (Ok a, w') => f a w'
  | (Raise e, w') => (Raise e, w')
  end.
Proof. reflexivity. Qed.

Lemma run_mret {A} (a : A) (w : world) : (mret a : M A) w = (Ok a, w).
Proof. reflexivity. Qed.

Lemma run_log lvl msg w : log lvl msg w = (Ok tt, add_event (Log lvl msg) w).
Proof. reflexivity. Qed.

Ltac run := repeat (rewrite ?run_bind, ?run_mret, ?run_log; cbn beta iota).

Lemma same_system_refl w : same_system w w.
Proof. repeat split. Qed.

Lemma same_system_add_event e w : same_system w (add_event e w).
Proof. repeat split. Qed.

Lemma same_system_trans w1 w2 w3 :
  same_system w1 w2 -> same_system w2 w3 -> same_system w1 w3.
Proof.
  unfold same_system. intros (?&?&?&?&?&?) (?&?&?&?&?&?).
  repeat split; congruence.
Qed.

Lemma calm_refl w : calm w w.
Proof.
  exists []. rewrite app_nil_r. split; [reflexivity | apply not_elem_of_nil].
Qed.

Lemma calm_trans w1 w2 w3 : calm w1 w2 -> calm w2 w3 -> calm w1 w3.
Proof.
  intros (evs1 & H1 & Hno1) (evs2 & H2 & Hno2). exists (evs1 ++ evs2). split.
  - rewrite H2, H1, app_assoc. reflexivity.
  - intros Hin. apply elem_of_app in Hin as [?|?]; auto.
Qed.

Lemma calm_log lvl msg w : calm w (add_event (Log lvl msg) w).
Proof.
  exists [Log lvl msg]. split; [reflexivity|].
  intros Hin. apply list_elem_of_singleton in Hin. discriminate.
Qed.

Create HintDb world.
#[local] Hint Resolve same_system_refl same_system_add_event : world.

(** ** Rounding to a double *)

Section Doubles.

Lemma round_half_even_bounds a b :
  0 < b -> 2 * a - b <= 2 * (round_half_even a b * b) <= 2 * a + b.
Proof.
  intros Hb. unfold round_half_even.
  pose proof (Z.div_mod a b ltac:(lia)) as Hdm.
  pose proof (Z.mod_pos_bound a b Hb) as Hr.
  destruct (Z.compare_spec (2 * (a mod b)) b) as [H|H|H];
    [destruct (Z.even (a / b))| |]; nia.
Qed.

Lemma round_half_even_ge a b j : 0 < b -> j * b <= a -> j <= round_half_even a b.
Proof.
  intros Hb Hj. unfold round_half_even.
  assert (j <= a / b) by (apply Z.div_le_lower_bound; lia).
  destruct (_ ?= _); [destruct (Z.even _)| |]; lia.
Qed.

Lemma round_half_even_le a b j : 0 < b -> a <= j * b -> round_half_even a b <= j.
Proof.
  intros Hb Hj. unfold round_half_even.
  pose proof (Z.div_mod a b ltac:(lia)) as Hdm.
  pose proof (Z.mod_pos_bound a b Hb) as Hr.
  assert (Hf : a / b <= j) by (apply Z.div_le_upper_bound; lia).
  destruct (Z.compare_spec (2 * (a mod b)) b) as [H|H|H];
    [destruct (Z.even (a / b))| |]; nia.
Qed.

Lemma log2_div_lower N d :
  0 < d -> 0 < N / d -> 2 ^ Z.log2 (N / d) * d <= N.
Proof.
  intros Hd HF.
  pose proof (Z.log2_spec (N / d) HF) as [Hlo _].
  pose proof (Z.mul_div_le N d Hd). nia.
Qed.

Lemma log2_div_upper N d :
  0 < d -> 0 <= N -> N < 2 ^ (Z.log2 (N / d) + 1) * d.
Proof.
  intros Hd HN.
  assert (HF : 0 <= N / d) by (apply Z.div_pos; lia).
  assert (Hup : N / d < 2 ^ (Z.log2 (N / d) + 1)).
  { destruct (Z.eq_dec (N / d) 0) as [->|Hne].
    - simpl. lia.
    - apply Z.log2_spec. lia. }
  pose proof (Z.mul_succ_div_gt N d Hd). nia.
Qed.

Section Grid.
Variables n d : Z.
Hypothesis Hn : 0 <= n.
Hypothesis Hd : 0 < d.

Let N := n * 2 ^ 1074.
Let E := Z.log2 (N / d).
Let S := Z.max E 52 - 52.

Lemma grid_S_nonneg : 0 <= S.
Proof. unfold S. lia. Qed.

Lemma grid_pow_pos : 0 < 2 ^ S.
Proof. apply Z.pow_pos_nonneg; [lia | apply grid_S_nonneg]. Qed.

Lemma grid_N_nonneg : 0 <= N.
Proof. unfold N. pose proof (Z.pow_pos_nonneg 2 1074). nia. Qed.

Lemma grid_normal : 2 ^ 52 * d <= N -> 52 <= E /\ 2 ^ 52 * (d * 2 ^ S) <= N.
Proof.
  intros Hnorm.
  assert (HF : 2 ^ 52 <= N / d) by (apply Z.div_le_lower_bound; lia).
  assert (HE : 52 <= E).
  { unfold E. apply Z.log2_le_pow2; [|exact HF].
    pose proof (Z.pow_pos_nonneg 2 52). lia. }
  split; [exact HE|].
  assert (HS : S = E - 52) by (unfold S; lia).
  pose proof (log2_div_lower N d Hd) as Hlo. fold E in Hlo.
  assert (HE2 : 2 ^ E = 2 ^ 52 * 2 ^ S).
  { rewrite HS, <- Z.pow_add_r by lia. f_equal. lia. }
  pose proof (Z.pow_pos_nonneg 2 52). nia.
Qed.

Lemma grid_nonneg : 0 <= round_grid n d.
Proof.
  unfold round_grid. fold N E S.
  pose proof grid_pow_pos. pose proof grid_N_nonneg.
  assert (0 <= round_half_even N (d * 2 ^ S)) by (apply round_half_even_ge; nia).
  nia.
Qed.

(** Rounding does not go below a double that the number is not below. *)
Lemma grid_ge j r :
  0 <= j <= 2 ^ 52 -> 0 <= r ->
  j * 2 ^ r * d <= N -> j * 2 ^ r <= round_grid n d.
Proof.
  intros Hj Hr Hle. unfold round_grid. fold N E S.
  pose proof grid_pow_pos as HP. pose proof grid_S_nonneg as HS0.
  destruct (Z_le_gt_dec S r) as [HSr|HSr].
  - assert (Hsplit : 2 ^ r = 2 ^ (r - S) * 2 ^ S).
    { rewrite <- Z.pow_add_r by lia. f_equal. lia. }
    assert (Hm : j * 2 ^ (r - S) <= round_half_even N (d * 2 ^ S)).
    { apply round_half_even_ge; [nia|]. rewrite Hsplit in Hle. nia. }
    rewrite Hsplit. nia.
  - assert (HE : S = E - 52 /\ 53 <= E) by (unfold S in *; lia).
    destruct HE as [HS HE].
    assert (HF : 0 < N / d).
    { destruct (Z_lt_le_dec 0 (N / d)) as [|Hneg]; [assumption|].
      pose proof (Z.log2_nonpos (N / d) Hneg). unfold E in HE. lia. }
    pose proof (log2_div_lower N d Hd HF) as Hlo. fold E in Hlo.
    assert (HE2 : 2 ^ E = 2 ^ 52 * 2 ^ S).
    { rewrite HS, <- Z.pow_add_r by lia. f_equal. lia. }
    assert (Hm : 2 ^ 52 <= round_half_even N (d * 2 ^ S)).
    { apply round_half_even_ge; nia. }
    assert (Hpow : 2 ^ r <= 2 ^ S) by (apply Z.pow_le_mono_r; lia).
    pose proof (Z.pow_pos_nonneg 2 r ltac:(lia) Hr).
    pose proof (Z.pow_pos_nonneg 2 52). nia.
Qed.

(** In the normal range the relative error is at most 2^-53. *)
Lemma grid_upper :
  2 ^ 52 * d <= N -> round_grid n d * d * 2 ^ 53 <= N * (2 ^ 53 + 1).
Proof.
  intros Hnorm. destruct (grid_normal Hnorm) as [HE Hlo].
  unfold round_grid. fold N E S.
  pose proof grid_pow_pos as HP.
  pose proof (round_half_even_bounds N (d * 2 ^ S) ltac:(nia)) as [_ Hup].
  change (2 ^ 53) with (2 * 2 ^ 52). pose proof (Z.pow_pos_nonneg 2 52).
  nia.
Qed.

(** Below 2^1023 there is no overflow. *)
Lemma grid_no_overflow :
  N < 2 ^ 2097 * d -> round_grid n d < 2 ^ 2098.
Proof.
  intros Hlt. unfold round_grid. fold N E S.
  pose proof grid_pow_pos as HP. pose proof grid_N_nonneg as HN.
  assert (HF : N / d < 2 ^ 2097) by (apply Z.div_lt_upper_bound; lia).
  assert (HE : E <= 2096).
  { unfold E. destruct (Z_lt_le_dec 0 (N / d)) as [Hpos|Hneg].
    - apply Z.log2_lt_pow2 in HF; lia.
    - rewrite (Z.log2_nonpos _ Hneg). lia. }
  pose proof (log2_div_upper N d Hd HN) as Hup. fold E in Hup.
  assert (Hm : round_half_even N (d * 2 ^ S) <= 2 ^ 53).
  { apply round_half_even_le; [nia|].
    destruct (Z_le_gt_dec 52 E) as [H52|H52].
    - assert (HS : S = E - 52) by (unfold S; lia).
      assert (HE2 : 2 ^ (E + 1) = 2 ^ 53 * 2 ^ S).
      { rewrite HS, <- Z.pow_add_r by lia. f_equal. lia. }
      nia.
    - assert (HS : S = 0) by (unfold S; lia). rewrite HS.
      assert (2 ^ (E + 1) <= 2 ^ 53) by (apply Z.pow_le_mono_r; lia).
      change (2 ^ 0) with 1. nia. }
  assert (HS : S <= 2044) by (unfold S; lia).
  assert (Hpow : 2 ^ S <= 2 ^ 2044).
  { apply Z.pow_le_mono_r; [lia | exact HS]. }
  assert (H98 : 2 ^ 2098 = 2 * 2 ^ 53 * 2 ^ 2044).
  { change 2098 with (1 + 53 + 2044).
    rewrite !Z.pow_add_r by lia. reflexivity. }
  rewrite H98.
  assert (0 <= round_half_even N (d * 2 ^ S)) by (apply round_half_even_ge; nia).
  pose proof (Z.pow_pos_nonneg 2 53). pose proof (Z.pow_pos_nonneg 2 2044).
  nia.
Qed.

(** In every range the error is at most 2^-53 of the number plus half a
    unit of the grid. *)
Lemma grid_upper_any :
  round_grid n d * d * 2 ^ 53 <= N * (2 ^ 53 + 1) + d * 2 ^ 52.
Proof.
  pose proof (Z.pow_pos_nonneg 2 52 ltac:(lia) ltac:(lia)) as H52.
  destruct (Z_le_gt_dec (2 ^ 52 * d) N) as [Hnorm|Hsub].
  - pose proof (grid_upper Hnorm). nia.
  - assert (HS : S = 0).
    { unfold S. assert (E < 52); [|lia]. unfold E.
      assert (HF : N / d < 2 ^ 52) by (apply Z.div_lt_upper_bound; lia).
      destruct (Z_lt_le_dec 0 (N / d)) as [Hpos|Hneg].
      - apply Z.log2_lt_pow2 in HF; lia.
      - rewrite (Z.log2_nonpos _ Hneg). lia. }
    unfold round_grid. fold N E S. rewrite HS.
    change (2 ^ 0) with 1. rewrite !Z.mul_1_r.
    pose proof (round_half_even_bounds N d Hd) as [_ Hup].
    change (2 ^ 53) with (2 * 2 ^ 52). nia.
Qed.

End Grid.

(** An integer below 2^53 is a double. *)
Lemma grid_exact c : 0 <= c < 2 ^ 53 -> round_grid c 1 = c * 2 ^ 1074.
Proof.
  intros [Hc0 Hc]. unfold round_grid. rewrite Z.div_1_r.
  destruct (Z.eq_dec c 0) as [->|Hne]; [reflexivity|].
  rewrite Z.log2_mul_pow2 by lia.
  assert (Hl : 0 <= Z.log2 c < 53).
  { split; [apply Z.log2_nonneg|]. apply Z.log2_lt_pow2; lia. }
  set (S := Z.max (1074 + Z.log2 c) 52 - 52).
  assert (HS : 0 <= S <= 1074) by (unfold S; lia).
  assert (Hsplit : 2 ^ 1074 = 2 ^ (1074 - S) * 2 ^ S).
  { rewrite <- Z.pow_add_r by lia. f_equal. lia. }
  assert (HP : 0 < 2 ^ S) by (apply Z.pow_pos_nonneg; lia).
  assert (Hm : round_half_even (c * 2 ^ 1074) (1 * 2 ^ S) = c * 2 ^ (1074 - S)).
  { apply Z.le_antisymm.
    - apply round_half_even_le; [lia|]. rewrite Hsplit. lia.
    - apply round_half_even_ge; [lia|]. rewrite Hsplit. lia. }
  rewrite Hm. rewrite Hsplit. lia.
Qed.

Lemma round_grid_zero d : 0 < d -> round_grid 0 d = 0.
Proof.
  intros Hd. unfold round_grid. rewrite Z.mul_0_l.
  set (P := 2 ^ _).
  assert (HP : 0 < P) by (apply Z.pow_pos_nonneg; lia).
  assert (round_half_even 0 (d * P) = 0); [|lia].
  apply Z.le_antisymm; [apply round_half_even_le | apply round_half_even_ge]; nia.
Qed.

Lemma Zpos_pow_1074 : Zpos (2 ^ 1074) = 2 ^ 1074.
Proof. apply Pos2Z.inj_pow. Qed.

(** What [round_double] returns for a number that is not negative and
    does not overflow. *)
Lemma round_double_nonneg q :
  0 <= Qnum q -> Qnum q * 2 ^ 1074 < 2 ^ 2097 * Zpos (Qden q) ->
  exists v, round_double q = Some v /\
    Qnum v * 2 ^ 1074 = round_grid (Qnum q) (Zpos (Qden q)) * Zpos (Qden v).
Proof.
  intros Hn Hlt. unfold round_double. rewrite (Z.abs_eq _ Hn).
  pose proof (grid_no_overflow (Qnum q) (Zpos (Qden q)) Hn ltac:(lia) Hlt) as Hg.
  destruct (Z.leb_spec (2 ^ 2098) (round_grid (Qnum q) (Zpos (Qden q))));
    [lia|].
  eexists. split; [reflexivity|].
  set (g := round_grid _ _) in *.
  pose proof (Qred_correct (Z.sgn (Qnum q) * g # 2 ^ 1074)) as Hred.
  unfold Qeq in Hred. cbn [Qnum Qden] in Hred.
  rewrite Zpos_pow_1074 in Hred. rewrite Hred.
  destruct (Z.eq_dec (Qnum q) 0) as [H0|H0].
  - unfold g. rewrite H0, round_grid_zero by lia. simpl. reflexivity.
  - rewrite Z.sgn_pos by lia. rewrite Z.mul_1_l. reflexivity.
Qed.

Lemma Qred_inject_Z c : Qred (inject_Z c) = inject_Z c.
Proof.
  unfold Qred, inject_Z.
  pose proof (Z.ggcd_gcd c 1) as Hg.
  pose proof (Z.ggcd_correct_divisors c 1) as Hd.
  destruct (Z.ggcd c 1) as [g [aa bb]]. simpl in Hg, Hd.
  rewrite Z.gcd_1_r in Hg. subst g. destruct Hd as [Ha Hb].
  simpl. replace aa with c by lia. replace bb with 1 by lia. reflexivity.
Qed.

(** An [int] below 2^53 converts to a float without rounding. *)
Lemma float_of_int_exact c : 0 <= c < 2 ^ 53 -> float_of_int c = Ok (inject_Z c).
Proof.
  intros Hc. unfold float_of_int, round_double. cbn [inject_Z Qnum Qden].
  rewrite (Z.abs_eq c) by lia. rewrite (grid_exact c Hc).
  assert (H98 : 2 ^ 2098 = 2 ^ 1024 * 2 ^ 1074).
  { rewrite <- Z.pow_add_r by lia. reflexivity. }
  assert (HW : 0 < 2 ^ 1074) by (apply Z.pow_pos_nonneg; lia).
  assert (H53 : 2 ^ 53 < 2 ^ 1024) by (apply Z.pow_lt_mono_r; lia).
  destruct (Z.leb_spec (2 ^ 2098) (c * 2 ^ 1074)); [nia|].
  f_equal. rewrite <- (Qred_inject_Z c). apply Qred_complete.
  unfold Qeq, inject_Z. cbn [Qnum Qden]. rewrite Zpos_pow_1074.
  destruct (Z.eq_dec c 0) as [->|Hne]; [reflexivity|].
  rewrite Z.sgn_pos by lia. lia.
Qed.

(** The two true divisions of [shutdown_saves_money] followed by
    [math.floor] give the floor of the exact quotient, as long as the
    uptime and one more chunk stay below 2^51 seconds. *)
Lemma floor_of_truedivs s c :
  0 <= s -> 0 < c -> s + 60 * c <= 2 ^ 51 ->
  exists x, int_truediv s 60 = Ok x /\
    result_bind (float_truediv_int x c) math_floor = Ok (s / (60 * c)).
Proof.
  intros Hs Hc Hb.
  set (W := 2 ^ 1074).
  assert (HW : 2 ^ 200 <= W) by (apply Z.pow_le_mono_r; lia).
  assert (H97 : 2 ^ 2097 = 2 ^ 1023 * W).
  { unfold W. rewrite <- Z.pow_add_r by lia. reflexivity. }
  assert (H1023 : 2 ^ 60 <= 2 ^ 1023) by (apply Z.pow_le_mono_r; lia).
  set (k := s / (60 * c)).
  assert (Hk : 0 <= k /\ k * (60 * c) <= s < (k + 1) * (60 * c)).
  { unfold k. pose proof (Z.mul_div_le s (60 * c) ltac:(lia)).
    pose proof (Z.mul_succ_div_gt s (60 * c) ltac:(lia)).
    pose proof (Z.div_pos s (60 * c) Hs ltac:(lia)). lia. }
  destruct Hk as (Hk0 & Hklo & Hkhi).
  (* the first division *)
  set (q1 := (inject_Z s / inject_Z 60)%Q).
  assert (Hq1 : Qnum q1 = s /\ Zpos (Qden q1) = 60).
  { unfold q1. simpl. split; lia. }
  destruct Hq1 as [Hq1n Hq1d].
  destruct (round_double_nonneg q1) as (x & Hx & Hxg).
  { lia. }
  { rewrite Hq1n, Hq1d, H97. fold W. nia. }
  rewrite Hq1n, Hq1d in Hxg. fold W in Hxg.
  set (g1 := round_grid s 60) in *.
  assert (Hg1lo : k * c * W <= g1).
  { unfold W. apply (grid_ge s 60 ltac:(lia) (k * c) 1074); nia. }
  pose proof (grid_upper_any s 60 Hs ltac:(lia)) as Hg1up.
  fold g1 W in Hg1up.
  unfold int_truediv. change (60 =? 0) with false. cbv iota.
  fold q1. rewrite Hx. exists x. split; [reflexivity|].
  (* the divisor *)
  unfold float_truediv_int. rewrite float_of_int_exact by lia.
  cbn [result_bind].
  destruct (Qeq_bool (inject_Z c) 0) eqn:Hzero.
  { apply Qeq_bool_eq in Hzero. unfold Qeq in Hzero. simpl in Hzero. lia. }
  (* the second division *)
  set (q2 := (x / inject_Z c)%Q).
  assert (Hq2 : Qnum q2 = Qnum x /\ Zpos (Qden q2) = Zpos (Qden x) * c).
  { unfold q2. destruct c as [|p|p]; try lia.
    unfold Qdiv, Qmult, Qinv. simpl. split; lia. }
  destruct Hq2 as [Hq2n Hq2d].
  set (xn := Qnum x) in *. set (xd := Zpos (Qden x)) in *.
  assert (Hxd : 0 < xd) by (unfold xd; lia).
  assert (Hg1 : 0 <= g1) by nia.
  assert (Hxn : 0 <= xn) by nia.
  destruct (round_double_nonneg q2) as (y & Hy & Hyg).
  { lia. }
  { rewrite Hq2n, Hq2d, H97. fold W. rewrite Hxg. nia. }
  rewrite Hq2n, Hq2d in Hyg. fold W in Hyg.
  set (g2 := round_grid xn (xd * c)) in *.
  assert (Hg2lo : k * W <= g2).
  { unfold W. apply (grid_ge xn (xd * c) ltac:(nia) k 1074); [nia|lia|].
    fold W. nia. }
  pose proof (grid_upper_any xn (xd * c) Hxn ltac:(nia)) as Hg2up.
  fold g2 W in Hg2up. rewrite Hxg in Hg2up.
  assert (Hg2up' : g2 * c * 2 ^ 53 <= g1 * (2 ^ 53 + 1) + c * 2 ^ 52) by nia.
  assert (Hg2hi : g2 < (k + 1) * W).
  { destruct (Z_lt_le_dec g2 ((k + 1) * W)) as [|Hge]; [assumption|exfalso].
    set (A := 60 * c * (k + 1)).
    assert (HA : A <= 2 ^ 51) by (unfold A; lia).
    assert (H2 : A * W * 2 ^ 53 <= 60 * (g1 * (2 ^ 53 + 1) + c * 2 ^ 52))
      by (unfold A; nia).
    assert (H3 : s * W <= A * W - W) by (unfold A; nia).
    assert (H4 : A * W <= 2 ^ 51 * W) by nia.
    nia. }
  unfold float_of_Q. fold q2. rewrite Hy. cbn [result_bind math_floor].
  f_equal. fold k.
  destruct y as [yn yd]. cbn [Qnum Qden] in Hyg. unfold Qfloor.
  symmetry. apply Z.div_unique with (r := yn - Zpos yd * k); [|lia].
  left. nia.
Qed.

End Doubles.

(** ** The billing evaluator *)

Section Billing.

Implicit Types (u p c m : Z) (w : world).

Lemma run_lift {A} (r : result A) w : lift r w = (r, w).
Proof. reflexivity. Qed.

(** The first division of [shutdown_saves_money] does not overflow while
    the safe uptime is below 2^1023 seconds. *)
Lemma int_truediv_60 s :
  Z.abs s < 2 ^ 1023 -> exists x, int_truediv s 60 = Ok x.
Proof.
  intros Hs. unfold int_truediv, round_double.
  change (60 =? 0) with false. cbv iota.
  set (q := (inject_Z s / inject_Z 60)%Q).
  assert (Hq : Qnum q = s /\ Zpos (Qden q) = 60).
  { unfold q. simpl. split; lia. }
  destruct Hq as [-> ->].
  assert (HW : 0 < 2 ^ 1074) by (apply Z.pow_pos_nonneg; lia).
  assert (H97 : 2 ^ 2097 = 2 ^ 1023 * 2 ^ 1074).
  { rewrite <- Z.pow_add_r by lia. reflexivity. }
  pose proof (grid_no_overflow (Z.abs s) 60 ltac:(lia) ltac:(lia)
                ltac:(rewrite H97; nia)) as Hg.
  destruct (Z.leb_spec (2 ^ 2098) (round_grid (Z.abs s) 60)); [lia|].
  eexists. reflexivity.
Qed.

Lemma already_paid_from_boot_run s ss p w :
  already_paid_from_boot s ss p w =
  if 0 <? p * 60 - (s + ss)
  then (Ok true, add_event (Log DEBUG "%s seconds of paid time left.") w)
  else (Ok false, w).
Proof.
  unfold already_paid_from_boot; cbv zeta.
  destruct (0 <? p * 60 - (s + ss)); reflexivity.
Qed.

(** Every path through [shutdown_saves_money]. *)
Lemma shutdown_saves_money_run u p c m w :
  shutdown_saves_money u p c m w =
  match int_truediv (u + m * 60) 60 with
  | Raise e => (Raise e, w)
  | Ok x =>
      if 0 <? p * 60 - (u + m * 60 + m * 60)
      then (Ok false,
            add_event (Log INFO "Idle, but we paid for this time on boot.")
              (add_event (Log DEBUG "%s seconds of paid time left.") w))
      else if c <=? 2 then (Ok true, w)
      else match result_bind (float_truediv_int x c) math_floor with
           | Raise e => (Raise e, w)
           | Ok k =>
               if (k + 1) * c * 60 - (u + m * 60) <=? m * 60
               then (Ok true,
                     add_event
                       (Log INFO "Only %s paid seconds left. Recommending shutdown.")
                       (chunk_logged w))
               else (Ok false, chunk_logged w)
           end
  end.
Proof.
  unfold shutdown_saves_money; cbv zeta. run. rewrite run_lift.
  destruct (int_truediv (u + m * 60) 60) as [x|e]; [|reflexivity].
  run. rewrite already_paid_from_boot_run.
  destruct (0 <? p * 60 - (u + m * 60 + m * 60)); [reflexivity|].
  destruct (c <=? 2); [reflexivity|].
  run. rewrite run_lift.
  destruct (result_bind (float_truediv_int x c) math_floor) as [k|e];
    [|reflexivity].
  run. destruct (_ <=? _); reflexivity.
Qed.

(** The evaluator only talks to the logger. *)
Lemma shutdown_saves_money_world u p c m w :
  same_system w (shutdown_saves_money u p c m w).2 /\
  calm w (shutdown_saves_money u p c m w).2.
Proof.
  rewrite shutdown_saves_money_run. unfold chunk_logged.
  repeat case_match; cbn [snd]; split;
    repeat first [ apply same_system_refl | apply calm_refl
                 | (eapply same_system_trans; [|apply same_system_add_event])
                 | (eapply calm_trans; [|apply calm_log]) ].
Qed.

(** The evaluator raises only out of its two divisions. *)
Lemma shutdown_saves_money_raises u p c m w x :
  (shutdown_saves_money u p c m w).1 = Raise x ->
  x = OverflowError \/ x = ZeroDivisionError.
Proof.
  rewrite shutdown_saves_money_run.
  unfold int_truediv, float_truediv_int, float_of_int, float_of_Q, math_floor.
  repeat (case_match; cbn [fst result_bind] in * );
    try discriminate; try intros [= <-]; simplify_eq; auto.
Qed.

(** C1: the five rows of the worked table that the specification singles
    out evaluate to the documented answers. *)
Theorem shutdown_saves_money_worked_table :
  forall w,
    (shutdown_saves_money (5 * 60) 10 1 2 w).1 = Ok false /\
    (shutdown_saves_money (6 * 60) 10 1 2 w).1 = Ok true /\
    (shutdown_saves_money (55 * 60) 60 60 2 w).1 = Ok false /\
    (shutdown_saves_money (56 * 60) 60 60 2 w).1 = Ok true /\
    (shutdown_saves_money (118 * 60) 60 60 2 w).1 = Ok false.
Proof. intros w. repeat split; vm_compute; reflexivity. Qed.

(** The remaining rows of the docstring table. *)
Example shutdown_saves_money_docstring_rows :
  forall w,
    map (fun u => (shutdown_saves_money (u * 60) 10 1 2 w).1) [7; 8; 9; 10; 11]
      = [Ok true; Ok true; Ok true; Ok true; Ok true] /\
    map (fun u => (shutdown_saves_money (u * 60) 60 60 2 w).1)
        [57; 58; 59; 60; 115; 116; 117; 119; 120]
      = [Ok true; Ok false; Ok false; Ok false; Ok false; Ok true; Ok true;
         Ok false; Ok false].
Proof. intros w. split; vm_compute; reflexivity. Qed.

(** C6, as the code has it: the division that opens the function comes
    before the already-paid check, so the check decides only when that
    division does not overflow. While the uptime plus one margin is below
    2^1023 seconds, the helper answers [true] exactly when the prepaid
    seconds exceed the uptime plus twice the margin, the evaluator then
    answers [false], and with exactly nothing left the check does not
    fire. *)
Theorem shutdown_saves_money_already_paid u p c m w :
  Z.abs (u + m * 60) < 2 ^ 1023 ->
  (already_paid_from_boot (u + m * 60) (m * 60) p w).1 =
    Ok (bool_decide (p * 60 - (u + 2 * m * 60) > 0)) /\
  (p * 60 - (u + 2 * m * 60) > 0 ->
   (shutdown_saves_money u p c m w).1 = Ok false) /\
  (p * 60 - (u + 2 * m * 60) = 0 -> c <= 2 ->
   (shutdown_saves_money u p c m w).1 = Ok true).
Proof.
  intros Hb. destruct (int_truediv_60 _ Hb) as [x Hx].
  rewrite already_paid_from_boot_run, shutdown_saves_money_run, Hx.
  destruct (Z.ltb_spec 0 (p * 60 - (u + m * 60 + m * 60))) as [Hlt|Hge];
    cbn [fst].
  - rewrite bool_decide_eq_true_2 by lia.
    split; [reflexivity | split; [intros _; reflexivity | intros; lia]].
  - rewrite bool_decide_eq_false_2 by lia.
    split; [reflexivity | split; [intros; lia |]].
    intros _ Hc. destruct (Z.leb_spec c 2); [reflexivity | lia].
Qed.

Lemma shutdown_saves_money_already_paid_witness :
  Z.abs (5 * 60 + 2 * 60) < 2 ^ 1023 /\
  (already_paid_from_boot (5 * 60 + 2 * 60) (2 * 60) 10 empty_dir_world).1 =
    Ok (bool_decide (10 * 60 - (5 * 60 + 2 * 2 * 60) > 0)) /\
  (10 * 60 - (5 * 60 + 2 * 2 * 60) > 0 ->
   (shutdown_saves_money (5 * 60) 10 1 2 empty_dir_world).1 = Ok false) /\
  (10 * 60 - (5 * 60 + 2 * 2 * 60) = 0 -> 1 <= 2 ->
   (shutdown_saves_money (5 * 60) 10 1 2 empty_dir_world).1 = Ok true).
Proof.
  assert (Hb : Z.abs (5 * 60 + 2 * 60) < 2 ^ 1023).
  { apply (bool_decide_unpack _). vm_compute. exact I. }
  split; [exact Hb|].
  apply (shutdown_saves_money_already_paid (5 * 60) 10 1 2 empty_dir_world Hb).
Defined.

(** Prepaid time is left, and still the evaluator does not answer: the
    division of the safe uptime by 60 is beyond the doubles. *)
Lemma shutdown_saves_money_already_paid_overflow :
  10 ^ 401 * 60 - (0 + 2 * 10 ^ 400 * 60) > 0 /\
  shutdown_saves_money 0 (10 ^ 401) 1 (10 ^ 400) empty_dir_world =
    (Raise OverflowError, empty_dir_world).
Proof. split; vm_compute; reflexivity. Qed.

(** The strictness of the check: with exactly nothing left of the prepaid
    time the check does not fire. *)
Example already_paid_is_strict :
  (already_paid_from_boot (6 * 60 + 2 * 60) (2 * 60) 10 empty_dir_world).1
    = Ok false /\
  (already_paid_from_boot (6 * 60 + 2 * 60 - 1) (2 * 60) 10 empty_dir_world).1
    = Ok true.
Proof. split; reflexivity. Qed.

(** C7, as the code has it: past the already-paid check, a payment chunk
    of two minutes or less answers [true], without a call of the logger,
    provided the division that opens the function does not overflow, which
    it does not while the uptime plus one margin is below 2^1023
    seconds. *)
Theorem shutdown_saves_money_fine_grained u p c m w :
  Z.abs (u + m * 60) < 2 ^ 1023 ->
  p * 60 - (u + 2 * m * 60) <= 0 ->
  c <= 2 ->
  shutdown_saves_money u p c m w = (Ok true, w).
Proof.
  intros Hb Hpaid Hc. destruct (int_truediv_60 _ Hb) as [x Hx].
  rewrite shutdown_saves_money_run, Hx.
  destruct (Z.ltb_spec 0 (p * 60 - (u + m * 60 + m * 60))); [lia |].
  destruct (Z.leb_spec c 2); [reflexivity | lia].
Qed.

Lemma shutdown_saves_money_fine_grained_witness :
  Z.abs (6 * 60 + 2 * 60) < 2 ^ 1023 /\
  10 * 60 - (6 * 60 + 2 * 2 * 60) <= 0 /\ 1 <= 2 /\
  shutdown_saves_money (6 * 60) 10 1 2 empty_dir_world = (Ok true, empty_dir_world).
Proof.
  assert (Hb : Z.abs (6 * 60 + 2 * 60) < 2 ^ 1023).
  { apply (bool_decide_unpack _). vm_compute. exact I. }
  split; [exact Hb | split; [lia | split; [lia |]]].
  apply (shutdown_saves_money_fine_grained (6 * 60) 10 1 2 empty_dir_world Hb); lia.
Defined.

(** No prepaid time is left and the chunk is one minute, and still the
    evaluator does not answer [true]: the division of the safe uptime by
    60 is beyond the doubles. *)
Lemma shutdown_saves_money_fine_grained_overflow :
  0 * 60 - (0 + 2 * 10 ^ 400 * 60) <= 0 /\ 1 <= 2 /\
  shutdown_saves_money 0 0 1 (10 ^ 400) empty_dir_world =
    (Raise OverflowError, empty_dir_world).
Proof.
  split; [vm_compute; discriminate | split; [lia | vm_compute; reflexivity]].
Qed.

End Billing.

(** ** The timeout reaper *)

Section Reaper.

Implicit Types (jobs : list Jobs) (w : world).

Lemma still_running_timed_out job : timed_out job = negb (still_running job).
Proof.
  unfold timed_out, still_running.
  rewrite Z.geb_leb, Z.ltb_antisym, negb_involutive. reflexivity.
Qed.

(** Logging the running jobs never fails and leaves the system alone. *)
Lemma log_loop_run {A} (l : list A) lvl msg w :
  exists w', for_each l (fun _ => log lvl msg) w = (Ok tt, w') /\
             same_system w w' /\ calm w w'.
Proof.
  revert w. induction l as [|x l IH]; intros w; simpl.
  - exists w. split; [reflexivity|]. split; [auto with world|].
    exists []. rewrite app_nil_r. split; [reflexivity | apply not_elem_of_nil].
  - unfold bind at 1. rewrite run_log.
    destruct (IH (add_event (Log lvl msg) w)) as (w' & Hrun & Hsame & evs & Htr & Hno).
    exists w'. split; [exact Hrun|]. split.
    + eapply same_system_trans; [apply same_system_add_event | exact Hsame].
    + exists (Log lvl msg :: evs). split.
      * rewrite Htr. simpl. rewrite <- app_assoc. reflexivity.
      * intros Hin. apply elem_of_cons in Hin as [Heq | Hin]; [discriminate | auto].
Qed.

(** When the deleting loop completes, exactly the markers of its jobs are
    gone; it only ever raises [OSError]. *)
Lemma reap_loop_run jobs w r w' :
  reap_loop jobs w = (r, w') ->
  w_dirs w' = w_dirs w /\ w_writable w' = w_writable w /\
  calm w w' /\
  match r with
  | Ok _ => w_files w' = files_without jobs (w_files w)
  | Raise e => e = OSError
  end.
Proof.
  unfold reap_loop. revert w. induction jobs as [|job jobs IH]; intros w; simpl.
  - intros [= <- <-]. repeat split.
    exists []. rewrite app_nil_r. split; [reflexivity | apply not_elem_of_nil].
  - unfold bind at 1. run. unfold os_remove at 1. simpl.
    destruct (w_files w !! file_path job) as [f|] eqn:Hf.
    + destruct (w_writable w) eqn:Hw.
      * intros Hrun. apply IH in Hrun as (Hd & Hwr & (evs & Htr & Hno) & Hr).
        simpl in *. repeat split; try congruence.
        exists (Log INFO "Job '%s' timed out after %s seconds" :: evs). split.
        -- rewrite Htr, <- app_assoc. reflexivity.
        -- intros Hin. apply elem_of_cons in Hin as [Heq | Hin]; [discriminate | auto].
      * intros [= <- <-]. simpl. repeat split; try congruence.
        exists [Log INFO "Job '%s' timed out after %s seconds"].
        split; [reflexivity|]. intros Hin.
        apply list_elem_of_singleton in Hin. discriminate.
    + intros [= <- <-]. simpl. repeat split.
      exists [Log INFO "Job '%s' timed out after %s seconds"].
      split; [reflexivity|]. intros Hin.
      apply list_elem_of_singleton in Hin. discriminate.
Qed.

(** The deleting loop completes on jobs whose markers exist, are pairwise
    different and may be deleted. *)
Lemma reap_loop_total jobs w :
  w_writable w = true ->
  NoDup (map file_path jobs) ->
  (forall job, job ∈ jobs -> is_Some (w_files w !! file_path job)) ->
  exists w', reap_loop jobs w = (Ok tt, w').
Proof.
  unfold reap_loop. revert w. induction jobs as [|job jobs IH]; intros w Hw Hnd Hex; simpl.
  - eexists. reflexivity.
  - unfold bind at 1. run. unfold os_remove at 1. simpl.
    destruct (Hex job) as [f Hf]; [apply list_elem_of_here|].
    rewrite Hf, Hw. simpl in Hnd. apply NoDup_cons in Hnd as [Hnotin Hnd].
    apply IH; [exact Hw | exact Hnd |].
    intros job' Hin. simpl.
    rewrite lookup_delete_ne.
    + apply Hex. apply list_elem_of_further. exact Hin.
    + intros Heq. apply Hnotin. rewrite Heq.
      apply list_elem_of_fmap. exists job'. split; [reflexivity | exact Hin].
Qed.

Lemma files_without_lookup jobs fs p :
  files_without jobs fs !! p =
  if decide (p ∈ map file_path jobs) then None else fs !! p.
Proof.
  unfold files_without. revert fs. induction jobs as [|job jobs IH]; intros fs; simpl.
  - reflexivity.
  - rewrite IH. destruct (decide (p ∈ map file_path jobs)) as [Hin|Hnin].
    + rewrite decide_True; [reflexivity | apply list_elem_of_further, Hin].
    + destruct (decide (p = file_path job)) as [->|Hne].
      * rewrite decide_True; [apply lookup_delete_eq | apply list_elem_of_here].
      * rewrite lookup_delete_ne by congruence.
        rewrite decide_False; [reflexivity|].
        intros Hin. apply elem_of_cons in Hin as [?|?]; contradiction.
Qed.

Lemma elem_of_List_filter {A} (f : A -> bool) (l : list A) (x : A) :
  x ∈ List.filter f l <-> f x = true /\ x ∈ l.
Proof.
  rewrite !list_elem_of_In, filter_In. tauto.
Qed.

Lemma NoDup_map_filter {A B} (g : A -> B) (f : A -> bool) (l : list A) :
  NoDup (map g l) -> NoDup (map g (List.filter f l)).
Proof.
  induction l as [|x l IH]; simpl; intros Hnd; [constructor|].
  apply NoDup_cons in Hnd as [Hnotin Hnd].
  destruct (f x); simpl; [|auto].
  apply NoDup_cons. split; [|auto].
  intros Hin. apply Hnotin.
  apply list_elem_of_fmap in Hin as (y & Hy & Hin).
  apply elem_of_List_filter in Hin as [_ Hin].
  apply list_elem_of_fmap. eauto.
Qed.

Lemma NoDup_map_inj {A B} (g : A -> B) (l : list A) (x y : A) :
  NoDup (map g l) -> x ∈ l -> y ∈ l -> g x = g y -> x = y.
Proof.
  induction l as [|z l IH]; simpl; intros Hnd Hx Hy Heq.
  - inversion Hx.
  - apply NoDup_cons in Hnd as [Hnotin Hnd].
    apply elem_of_cons in Hx as [->|Hx]; apply elem_of_cons in Hy as [->|Hy];
      auto.
    + exfalso. apply Hnotin. rewrite Heq. apply list_elem_of_fmap. eauto.
    + exfalso. apply Hnotin. rewrite <- Heq. apply list_elem_of_fmap. eauto.
Qed.

(** What a run of the reaper does: it returns the still-running jobs after
    deleting the markers of the others, or raises [OSError] from a failed
    deletion. *)
Lemma remove_timed_out_jobs_run jobs w r w' :
  remove_timed_out_jobs jobs w = (r, w') ->
  w_dirs w' = w_dirs w /\ w_writable w' = w_writable w /\
  calm w w' /\
  match r with
  | Ok running =>
      running = List.filter still_running jobs /\
      w_files w' = files_without (List.filter timed_out jobs) (w_files w)
  | Raise e => e = OSError
  end.
Proof.
  unfold remove_timed_out_jobs. cbv zeta. rewrite run_bind.
  destruct (log_loop_run (List.filter still_running jobs) INFO
              "Job '%s' still running after %s seconds" w)
    as (w1 & -> & (Hd1 & Hf1 & Hw1 & _) & evs1 & Htr1 & Hno1).
  rewrite run_bind.
  destruct (reap_loop (List.filter timed_out jobs) w1) as [r2 w2] eqn:Hreap.
  apply reap_loop_run in Hreap as (Hd2 & Hw2 & (evs2 & Htr2 & Hno2) & Hr2).
  assert (Htrace : exists evs, w_trace w2 = w_trace w ++ evs /\ Shutdown ∉ evs).
  { exists (evs1 ++ evs2). split.
    - rewrite Htr2, Htr1, app_assoc. reflexivity.
    - intros Hin. apply elem_of_app in Hin as [?|?]; auto. }
  destruct r2 as [[]|e]; rewrite ?run_mret; intros [= <- <-];
    (split; [congruence|]); (split; [congruence|]); (split; [exact Htrace|]).
  - split; [reflexivity|]. rewrite Hr2, Hf1. reflexivity.
  - exact Hr2.
Qed.

(** The reaper returns on the jobs of a scan: every marker present, no
    two jobs sharing a marker, deletion permitted. *)
Lemma remove_timed_out_jobs_total jobs w :
  w_writable w = true ->
  NoDup (map file_path jobs) ->
  (forall job, job ∈ jobs -> is_Some (w_files w !! file_path job)) ->
  exists w',
    remove_timed_out_jobs jobs w = (Ok (List.filter still_running jobs), w').
Proof.
  intros Hw Hnd Hex.
  unfold remove_timed_out_jobs. cbv zeta. rewrite run_bind.
  destruct (log_loop_run (List.filter still_running jobs) INFO
              "Job '%s' still running after %s seconds" w)
    as (w1 & -> & (_ & Hf1 & Hw1 & _) & _).
  rewrite run_bind.
  destruct (reap_loop_total (List.filter timed_out jobs) w1) as [w2 ->].
  - congruence.
  - apply NoDup_map_filter, Hnd.
  - intros job Hin. apply elem_of_List_filter in Hin as [_ Hin].
    rewrite Hf1. auto.
  - rewrite run_mret. eauto.
Qed.

(** C4, as the code has it: when every marker is still present, no two
    jobs share a marker and deletion is permitted, the reaper returns, and
    it partitions its input by the expiry rule: an expired job loses its
    marker and is not returned; a job still running is returned and keeps
    its marker. *)
Theorem remove_timed_out_jobs_partition jobs w :
  w_writable w = true ->
  NoDup (map file_path jobs) ->
  (forall job, job ∈ jobs -> is_Some (w_files w !! file_path job)) ->
  exists running w',
    remove_timed_out_jobs jobs w = (Ok running, w') /\
    (forall job, job ∈ running -> job ∈ jobs) /\
    forall job, job ∈ jobs ->
      (seconds_running job >= timeout_threshold_minutes job * 60 ->
         w_files w' !! file_path job = None /\ job ∉ running) /\
      (seconds_running job < timeout_threshold_minutes job * 60 ->
         job ∈ running /\
         w_files w' !! file_path job = w_files w !! file_path job).
Proof.
  intros Hw Hnd Hex.
  destruct (remove_timed_out_jobs_total jobs w Hw Hnd Hex) as [w' Hrun].
  pose proof Hrun as Hspec. apply remove_timed_out_jobs_run in Hspec.
  destruct Hspec as (_ & _ & _ & _ & Hfiles). rewrite Hrun.
  exists (List.filter still_running jobs), w'. split; [reflexivity|].
  split; [intros job Hin; apply elem_of_List_filter in Hin; tauto|].
  intros job Hin. rewrite Hfiles, files_without_lookup. split; intros Hrule.
  - split.
    + rewrite decide_True; [reflexivity|].
      apply list_elem_of_fmap. exists job. split; [reflexivity|].
      apply elem_of_List_filter. split; [|exact Hin].
      unfold timed_out. apply Z.geb_le. lia.
    + intros Hrun'. apply elem_of_List_filter in Hrun' as [Hrun' _].
      unfold still_running in Hrun'. apply Z.ltb_lt in Hrun'. lia.
  - split.
    + apply elem_of_List_filter. split; [|exact Hin].
      unfold still_running. apply Z.ltb_lt. lia.
    + rewrite decide_False; [reflexivity|].
      intros Hp. apply list_elem_of_fmap in Hp as (job' & Heq & Hin').
      apply elem_of_List_filter in Hin' as [Hto Hin'].
      assert (job = job') as <- by (eapply NoDup_map_inj; eauto).
      unfold timed_out in Hto. apply Z.geb_le in Hto. lia.
Qed.

End Reaper.

(** ** The idle detector *)

Section IdleDetector.

Implicit Types (jobs : list Jobs) (w : world).

Lemma in_quiet_period_true jobs :
  in_quiet_period jobs = true <->
  exists job, job ∈ jobs /\ name job = IDLE_QUIET_JOB_NAME.
Proof.
  unfold in_quiet_period. rewrite existsb_exists. split.
  - intros (job & Hin & Heq). exists job.
    split; [apply list_elem_of_In, Hin | apply String.eqb_eq, Heq].
  - intros (job & Hin & Heq). exists job.
    split; [apply list_elem_of_In, Hin | apply String.eqb_eq, Heq].
Qed.

Lemma filter_still_running_nil jobs :
  List.filter still_running jobs = [] ->
  List.filter timed_out jobs = jobs /\
  forall job, job ∈ jobs ->
    seconds_running job >= timeout_threshold_minutes job * 60.
Proof.
  induction jobs as [|job jobs IH]; simpl; intros Hnil.
  - split; [reflexivity | intros job Hin; inversion Hin].
  - rewrite still_running_timed_out.
    destruct (still_running job) eqn:Hsr; [discriminate|]. simpl.
    destruct (IH Hnil) as [-> Hall]. split; [reflexivity|].
    intros job' Hin. apply elem_of_cons in Hin as [->|Hin]; [|auto].
    unfold still_running in Hsr. apply Z.ltb_ge in Hsr. lia.
Qed.

(** Every outcome of the idle detector. *)
Lemma is_machine_idle_run jobs q dir w r w' :
  is_machine_idle jobs q dir w = (r, w') ->
  calm w w' /\
  match r with
  | Ok true =>
      in_quiet_period jobs = true /\
      List.filter still_running jobs = [] /\
      w_files w' = files_without (List.filter timed_out jobs) (w_files w)
  | Ok false =>
      (List.filter still_running jobs <> [] /\
       w_files w' = files_without (List.filter timed_out jobs) (w_files w)) \/
      (List.filter still_running jobs = [] /\
       in_quiet_period jobs = false /\
       w_files w' =
         <[quiet_timer_path dir := {| f_body := q; f_mtime := w_now w' |}]>
           (files_without (List.filter timed_out jobs) (w_files w)))
  | Raise e => e = OSError \/ e = IOError
  end.
Proof.
  unfold calm, is_machine_idle. cbv zeta.
  rewrite run_bind.
  assert (Hfirst : exists w0 evs0,
    (if in_quiet_period jobs
     then log INFO "Previously in the quiet period" else mret ()) w = (Ok tt, w0) /\
    same_system w w0 /\ w_trace w0 = w_trace w ++ evs0 /\ Shutdown ∉ evs0).
  { destruct (in_quiet_period jobs).
    - eexists _, [_]. split; [reflexivity|]. split; [apply same_system_add_event|].
      split; [reflexivity|]. intros Hin. apply list_elem_of_singleton in Hin.
      discriminate.
    - exists w, []. split; [reflexivity|]. split; [apply same_system_refl|].
      rewrite app_nil_r. split; [reflexivity | apply not_elem_of_nil]. }
  destruct Hfirst as (w0 & evs0 & -> & (Hd0 & Hf0 & Hw0 & _ & Hn0 & _) & Htr0 & Hno0).
  rewrite run_bind.
  destruct (remove_timed_out_jobs jobs w0) as [r1 w1] eqn:Hreap.
  apply remove_timed_out_jobs_run in Hreap as (Hd1 & Hw1 & (evs1 & Htr1 & Hno1) & Hr1).
  assert (Hext : forall evs2, Shutdown ∉ evs2 ->
            exists evs, w_trace w1 ++ evs2 = w_trace w ++ evs /\ Shutdown ∉ evs).
  { intros evs2 Hno2. exists (evs0 ++ evs1 ++ evs2). split.
    - rewrite Htr1, Htr0, <- !app_assoc. reflexivity.
    - intros Hin. apply elem_of_app in Hin as [?|Hin]; [auto|].
      apply elem_of_app in Hin as [?|?]; auto. }
  assert (Hlog : forall lvl msg, Shutdown ∉ [Log lvl msg]).
  { intros lvl msg Hin. apply list_elem_of_singleton in Hin. discriminate. }
  destruct r1 as [running|e].
  - destruct Hr1 as [-> Hfiles]. rewrite Hf0 in Hfiles.
    destruct (List.filter still_running jobs) as [|job running] eqn:Hrunning.
    + destruct (in_quiet_period jobs) eqn:Hquiet.
      * run. intros [= <- <-]. simpl. split; [apply Hext, Hlog | auto].
      * run. unfold open_write. simpl.
        destruct (bool_decide _ && _).
        -- intros [= <- <-]. simpl. split; [apply Hext, Hlog|].
           right. rewrite Hfiles. auto.
        -- intros [= <- <-]. simpl. split; [apply Hext, Hlog | auto].
    + run. intros [= <- <-]. simpl. split; [apply Hext, Hlog|].
      left. split; [discriminate | exact Hfiles].
  - intros [= <- <-]. split; [|auto].
    destruct (Hext [] (not_elem_of_nil _)) as (evs & Heq & Hno).
    rewrite app_nil_r in Heq. eauto.
Qed.

(** C10: the detector answers [true] only when the quiet-timer job was in
    its input and every input job had expired; that call deletes every
    input marker and leaves every other file as it was, writing none. *)
Theorem is_machine_idle_true_only_after_quiet_period jobs q dir w w' :
  is_machine_idle jobs q dir w = (Ok true, w') ->
  (exists job, job ∈ jobs /\ name job = IDLE_QUIET_JOB_NAME) /\
  (forall job, job ∈ jobs ->
     seconds_running job >= timeout_threshold_minutes job * 60) /\
  (forall job, job ∈ jobs -> w_files w' !! file_path job = None) /\
  (forall p f, w_files w' !! p = Some f -> w_files w !! p = Some f).
Proof.
  intros Hrun. apply is_machine_idle_run in Hrun as [_ (Hquiet & Hnil & Hfiles)].
  apply filter_still_running_nil in Hnil as [Hall Hexp].
  rewrite Hall in Hfiles.
  split; [apply in_quiet_period_true, Hquiet|].
  split; [exact Hexp|]. split.
  - intros job Hin. rewrite Hfiles, files_without_lookup.
    rewrite decide_True; [reflexivity|].
    apply list_elem_of_fmap. eauto.
  - intros p f. rewrite Hfiles, files_without_lookup.
    destruct (decide _); [discriminate | auto].
Qed.






End IdleDetector.

(** ** The job registry *)

Section Registry.

Implicit Types (w : world) (dir entry : string).

(** Reading one marker: the outcome, and the world is left as it was. *)
Lemma _build_job_from_fp_run dir entry w :
  _build_job_from_fp dir entry w =
  (match w_files w !! os_path_join dir entry with
   | None => Raise OSError
   | Some f =>
       result_bind (first_token_float (f_body f)) (fun timeout_minutes =>
       result_bind (int_of_float timeout_minutes) (fun threshold =>
       Ok {| name := (splitext entry).1;
             seconds_running := int_of_Q (w_now w - f_mtime f);
             timeout_threshold_minutes := threshold;
             file_path := os_path_join dir entry |}))
   end, w).
Proof.
  unfold _build_job_from_fp. cbv zeta. run.
  unfold os_path_getmtime, time_time, open_read, lift.
  destruct (w_files w !! os_path_join dir entry) as [f|] eqn:Hf; [|reflexivity].
  run. rewrite Hf. run.
  destruct (first_token_float (f_body f)) as [t|x]; [|reflexivity].
  run. cbn [result_bind].
  destruct (int_of_float t) as [threshold|x]; reflexivity.
Qed.

Lemma _build_job_from_fp_world dir entry w :
  (_build_job_from_fp dir entry w).2 = w.
Proof. rewrite _build_job_from_fp_run. reflexivity. Qed.

Lemma _build_job_from_fp_same_system dir entry w w' :
  same_system w w' ->
  (_build_job_from_fp dir entry w').1 = (_build_job_from_fp dir entry w).1.
Proof.
  intros (_ & Hf & _ & _ & Hn & _).
  rewrite !_build_job_from_fp_run. simpl. rewrite Hf, Hn. reflexivity.
Qed.

(** The scan loop either reads every marker of the listing, in order, or
    stops at the first marker that cannot be read, with its exception. *)
Lemma build_jobs_loop_run dir (job_files : list string) (acc : list Jobs) w :
  exists r w',
    build_jobs_loop dir job_files acc w = (r, w') /\
    same_system w w' /\
    calm w w' /\
    match r with
    | Ok jobs =>
        exists new, jobs = acc ++ new /\
          Forall2 (fun e job => (_build_job_from_fp dir e w).1 = Ok job)
                  (List.filter is_marker job_files) new
    | Raise x =>
        exists e, e ∈ job_files /\ is_marker e = true /\
                  (_build_job_from_fp dir e w).1 = Raise x
    end.
Proof.
  revert acc w. induction job_files as [|e rest IH]; intros acc w; simpl.
  - exists (Ok acc), w. split; [reflexivity|]. split; [apply same_system_refl|].
    split.
    + exists []. rewrite app_nil_r. split; [reflexivity | apply not_elem_of_nil].
    + exists []. rewrite app_nil_r. split; [reflexivity | constructor].
  - fold (is_marker e). destruct (is_marker e) eqn:He; simpl; run.
    + set (w0 := add_event (Log DEBUG "Parsing job for: %s") w).
      assert (Hsame0 : same_system w w0) by apply same_system_add_event.
      pose proof (_build_job_from_fp_same_system dir e w w0 Hsame0) as Hres.
      pose proof (_build_job_from_fp_world dir e w0) as Hw0.
      destruct (_build_job_from_fp dir e w0) as [[job|x] wj]; simpl in Hres, Hw0;
        subst wj.
      * destruct (IH (acc ++ [job]) w0) as (r & w' & Hrun & Hsame & (evs & Htr & Hno) & Hr).
        exists r, w'. split; [exact Hrun|].
        split; [exact (same_system_trans _ _ _ Hsame0 Hsame)|]. split.
        -- exists (Log DEBUG "Parsing job for: %s" :: evs). split.
           ++ rewrite Htr. unfold w0. simpl. rewrite <- app_assoc. reflexivity.
           ++ intros Hin. apply elem_of_cons in Hin as [?|?]; [discriminate | auto].
        -- destruct r as [jobs|x].
           ++ destruct Hr as (new & -> & Hall). exists (job :: new).
              split; [rewrite <- app_assoc; reflexivity|].
              constructor; [symmetry; exact Hres|].
              eapply Forall2_impl; [exact Hall|]. intros e' job' Hb. simpl in Hb.
              rewrite <- Hb. symmetry.
              apply _build_job_from_fp_same_system, Hsame0.
           ++ destruct Hr as (e' & Hin & Hm & Hb). exists e'.
              split; [apply list_elem_of_further, Hin|]. split; [exact Hm|].
              rewrite <- Hb. symmetry.
              apply _build_job_from_fp_same_system, Hsame0.
      * exists (Raise x), w0. split; [reflexivity|]. split; [exact Hsame0|]. split.
        -- exists [Log DEBUG "Parsing job for: %s"]. split; [reflexivity|].
           intros Hin. apply list_elem_of_singleton in Hin. discriminate.
        -- exists e. split; [apply list_elem_of_here|]. split; [exact He|].
           symmetry. exact Hres.
    + set (w0 := add_event (Log INFO "File doesn't end with %s, skpping: %s") w).
      assert (Hsame0 : same_system w w0) by apply same_system_add_event.
      destruct (IH acc w0) as (r & w' & Hrun & Hsame & (evs & Htr & Hno) & Hr).
      exists r, w'. split; [exact Hrun|].
      split; [exact (same_system_trans _ _ _ Hsame0 Hsame)|]. split.
      * exists (Log INFO "File doesn't end with %s, skpping: %s" :: evs). split.
        -- rewrite Htr. unfold w0. simpl. rewrite <- app_assoc. reflexivity.
        -- intros Hin. apply elem_of_cons in Hin as [?|?]; [discriminate | auto].
      * destruct r as [jobs|x].
        -- destruct Hr as (new & -> & Hall). exists new. split; [reflexivity|].
           eapply Forall2_impl; [exact Hall|]. intros e' job' Hb. simpl in Hb.
           rewrite <- Hb. symmetry.
           apply _build_job_from_fp_same_system, Hsame0.
        -- destruct Hr as (e' & Hin & Hm & Hb). exists e'.
           split; [apply list_elem_of_further, Hin|]. split; [exact Hm|].
           rewrite <- Hb. symmetry.
           apply _build_job_from_fp_same_system, Hsame0.
Qed.

(** The directory part of [build_jobs_from_dir], case by case. *)
Lemma build_jobs_from_dir_present dir w :
  dir ∈ w_dirs w -> w_listable w = true ->
  build_jobs_from_dir dir w =
  build_jobs_loop dir (entries dir (w_files w)) [] w.
Proof.
  intros Hdir Hl. unfold build_jobs_from_dir, os_path_isdir. run.
  rewrite bool_decide_eq_true_2 by exact Hdir. cbn [negb]. run.
  unfold try_except_OSError, os_listdir.
  rewrite bool_decide_eq_true_2 by exact Hdir. rewrite Hl. reflexivity.
Qed.

Lemma build_jobs_from_dir_unlistable dir w :
  dir ∈ w_dirs w -> w_listable w = false ->
  build_jobs_from_dir dir w =
  (Ok [], add_event
            (Log CRITICAL "Problem reading the job-tracking directory: '%s'") w).
Proof.
  intros Hdir Hl. unfold build_jobs_from_dir, os_path_isdir. run.
  rewrite bool_decide_eq_true_2 by exact Hdir. cbn [negb]. run.
  unfold try_except_OSError, os_listdir.
  rewrite bool_decide_eq_true_2 by exact Hdir. rewrite Hl. reflexivity.
Qed.

Lemma build_jobs_from_dir_uncreatable dir w :
  dir ∉ w_dirs w -> w_writable w = false ->
  build_jobs_from_dir dir w = (Raise OSError, w).
Proof.
  intros Hdir Hw. unfold build_jobs_from_dir, os_path_isdir. run.
  rewrite bool_decide_eq_false_2 by exact Hdir. cbn [negb].
  unfold create_tracking_dir, os_makedirs.
  rewrite bool_decide_eq_false_2 by exact Hdir. rewrite Hw. reflexivity.
Qed.

Lemma elem_of_makedirs_dirs d name (ds : gset string) :
  d ∈ makedirs_dirs name ds <->
  d = name \/ d ∈ makedirs_parents (String.length name) name ds \/ d ∈ ds.
Proof.
  unfold makedirs_dirs.
  rewrite !elem_of_union, elem_of_singleton, elem_of_list_to_set. tauto.
Qed.

Lemma build_jobs_from_dir_created dir w :
  dir ∉ w_dirs w -> w_writable w = true -> w_listable w = true ->
  build_jobs_from_dir dir w =
  build_jobs_loop dir (entries dir (w_files w)) []
    (set_dirs (makedirs_dirs dir (w_dirs w)) w).
Proof.
  intros Hdir Hw Hl. unfold build_jobs_from_dir, os_path_isdir. run.
  rewrite bool_decide_eq_false_2 by exact Hdir. cbn [negb].
  unfold create_tracking_dir, os_makedirs.
  rewrite bool_decide_eq_false_2 by exact Hdir. rewrite Hw. run.
  unfold try_except_OSError, os_listdir. cbn [w_dirs w_listable set_dirs].
  rewrite bool_decide_eq_true_2 by (apply elem_of_makedirs_dirs; auto).
  rewrite Hl. reflexivity.
Qed.

Lemma build_jobs_from_dir_created_unlistable dir w :
  dir ∉ w_dirs w -> w_writable w = true -> w_listable w = false ->
  build_jobs_from_dir dir w =
  (Ok [], add_event
            (Log CRITICAL "Problem reading the job-tracking directory: '%s'")
            (set_dirs (makedirs_dirs dir (w_dirs w)) w)).
Proof.
  intros Hdir Hw Hl. unfold build_jobs_from_dir, os_path_isdir. run.
  rewrite bool_decide_eq_false_2 by exact Hdir. cbn [negb].
  unfold create_tracking_dir, os_makedirs.
  rewrite bool_decide_eq_false_2 by exact Hdir. rewrite Hw. run.
  unfold try_except_OSError, os_listdir. cbn [w_dirs w_listable set_dirs].
  rewrite bool_decide_eq_true_2 by (apply elem_of_makedirs_dirs; auto).
  rewrite Hl. reflexivity.
Qed.

(** The scan never calls the shutdown trigger. *)
Lemma build_jobs_from_dir_trace dir w :
  calm w (build_jobs_from_dir dir w).2.
Proof.
  assert (Hnil : exists evs, w_trace w = w_trace w ++ evs /\ Shutdown ∉ evs).
  { exists []. rewrite app_nil_r. split; [reflexivity | apply not_elem_of_nil]. }
  assert (Hcrit : exists evs,
    w_trace w ++ [Log CRITICAL "Problem reading the job-tracking directory: '%s'"]
      = w_trace w ++ evs /\ Shutdown ∉ evs).
  { eexists. split; [reflexivity|]. intros Hin.
    apply list_elem_of_singleton in Hin. discriminate. }
  destruct (decide (dir ∈ w_dirs w)) as [Hdir|Hdir];
    [|destruct (w_writable w) eqn:Hw]; destruct (w_listable w) eqn:Hl.
  - rewrite build_jobs_from_dir_present by assumption.
    destruct (build_jobs_loop_run dir (entries dir (w_files w)) [] w)
      as (r & w' & -> & _ & Htr & _). exact Htr.
  - rewrite build_jobs_from_dir_unlistable by assumption. exact Hcrit.
  - rewrite build_jobs_from_dir_created by assumption.
    destruct (build_jobs_loop_run dir (entries dir (w_files w)) []
                (set_dirs (makedirs_dirs dir (w_dirs w)) w))
      as (r & w' & -> & _ & Htr & _). exact Htr.
  - rewrite build_jobs_from_dir_created_unlistable by assumption. exact Hcrit.
  - rewrite build_jobs_from_dir_uncreatable by assumption. exact Hnil.
  - rewrite build_jobs_from_dir_uncreatable by assumption. exact Hnil.
Qed.

Lemma elem_of_entries dir entry (fs : gmap (string * string) file) :
  entry ∈ entries dir fs <-> is_Some (fs !! (dir, entry)).
Proof.
  unfold entries. rewrite list_elem_of_omap. split.
  - intros ([[d e] f] & Hin & Hsome). simpl in Hsome.
    destruct (decide (d = dir)) as [->|]; [|discriminate].
    injection Hsome as ->. apply elem_of_map_to_list in Hin. eauto.
  - intros [f Hf]. exists ((dir, entry), f). split.
    + apply elem_of_map_to_list. exact Hf.
    + simpl. rewrite decide_True by reflexivity. reflexivity.
Qed.

Lemma NoDup_entries dir (fs : gmap (string * string) file) :
  NoDup (entries dir fs).
Proof.
  unfold entries.
  pose proof (NoDup_fst_map_to_list fs) as Hnd.
  induction (map_to_list fs) as [|[[d e] f] l IH]; simpl; [constructor|].
  simpl in Hnd. apply NoDup_cons in Hnd as [Hnotin Hnd].
  destruct (decide (d = dir)) as [->|]; [|auto].
  apply NoDup_cons. split; [|auto].
  intros Hin. apply list_elem_of_omap in Hin as ([[d' e'] f'] & Hin & Hsome).
  simpl in Hsome. destruct (decide (d' = dir)) as [->|]; [|discriminate].
  injection Hsome as ->. apply Hnotin.
  apply list_elem_of_fmap. exists ((dir, e), f'). split; [reflexivity | exact Hin].
Qed.

(** The jobs of a completed scan have pairwise different markers, and
    every marker is there: what the reaper needs of them. *)
Lemma build_jobs_from_dir_markers dir w jobs w' :
  build_jobs_from_dir dir w = (Ok jobs, w') ->
  NoDup (map file_path jobs) /\
  forall job, job ∈ jobs -> is_Some (w_files w' !! file_path job).
Proof.
  assert (Hloop : forall w0,
    w_files w0 = w_files w ->
    build_jobs_loop dir (entries dir (w_files w)) [] w0 = (Ok jobs, w') ->
    NoDup (map file_path jobs) /\
    forall job, job ∈ jobs -> is_Some (w_files w' !! file_path job)).
  { intros w0 Hfs Hrun.
    destruct (build_jobs_loop_run dir (entries dir (w_files w)) [] w0)
      as (r & w1 & Hrun' & (_ & Hf1 & _) & _ & Hr).
    rewrite Hrun in Hrun'. injection Hrun' as <- <-.
    destruct Hr as (new & -> & Hall). simpl.
    assert (Hnd : NoDup (List.filter is_marker (entries dir (w_files w))))
      by apply NoDup_ListNoDup, List.NoDup_filter, NoDup_ListNoDup, NoDup_entries.
    clear Hrun. revert Hnd.
    induction Hall as [|e job es new He Hall IH]; intros Hnd.
    - split; [constructor | intros job Hin; inversion Hin].
    - apply NoDup_cons in Hnd as [Hnotin Hnd].
      destruct (IH Hnd) as [IHnd IHex].
      rewrite _build_job_from_fp_run in He. cbn [fst] in He.
      destruct (w_files w0 !! os_path_join dir e) as [f|] eqn:Hf; [|discriminate].
      destruct (first_token_float (f_body f)) as [t|]; [|discriminate].
      cbn [result_bind] in He.
      destruct (int_of_float t) as [threshold|]; [|discriminate].
      cbn [result_bind] in He. injection He as <-. split.
      + simpl. apply NoDup_cons. split; [|exact IHnd].
        intros Hin. apply Hnotin.
        apply list_elem_of_fmap in Hin as (job' & Hpath & Hin).
        apply list_elem_of_lookup in Hin as [i Hi].
        destruct (Forall2_lookup_r _ _ _ _ _ Hall Hi) as (e' & He' & Hb).
        rewrite _build_job_from_fp_run in Hb. cbn [fst] in Hb.
        destruct (w_files w0 !! os_path_join dir e') as [f'|]; [|discriminate].
        destruct (first_token_float (f_body f')) as [t'|]; [|discriminate].
        cbn [result_bind] in Hb.
        destruct (int_of_float t') as [threshold'|]; [|discriminate].
        cbn [result_bind] in Hb. injection Hb as <-. simpl in Hpath.
        injection Hpath as ->. apply list_elem_of_lookup. eauto.
      + intros job Hin. apply elem_of_cons in Hin as [->|Hin]; [|auto].
        simpl. rewrite Hf1. eauto. }
  destruct (decide (dir ∈ w_dirs w)) as [Hdir|Hdir];
    [|destruct (w_writable w) eqn:Hw]; destruct (w_listable w) eqn:Hl.
  - rewrite build_jobs_from_dir_present by assumption. apply Hloop. reflexivity.
  - rewrite build_jobs_from_dir_unlistable by assumption. intros [= <- _].
    split; [constructor | intros job Hin; inversion Hin].
  - rewrite build_jobs_from_dir_created by assumption. apply Hloop. reflexivity.
  - rewrite build_jobs_from_dir_created_unlistable by assumption. intros [= <- _].
    split; [constructor | intros job Hin; inversion Hin].
  - rewrite build_jobs_from_dir_uncreatable by assumption. discriminate.
  - rewrite build_jobs_from_dir_uncreatable by assumption. discriminate.
Qed.

(** C5, as the code has it: one marker that cannot be read aborts the
    scan. A marker whose first token is not a number makes
    [build_jobs_from_dir] raise, and so does, in the scan loop, a listed
    marker that is gone when it is read; no job list is returned. When
    every marker reads, each one is returned as a job, in listing order,
    and the entries without the extension are left out. *)
Theorem build_jobs_from_dir_unreadable_marker_raises dir w :
  dir ∈ w_dirs w ->
  w_listable w = true ->
  (forall entry f x,
     w_files w !! (dir, entry) = Some f ->
     is_marker entry = true ->
     first_token_float (f_body f) = Raise x ->
     exists x' w', build_jobs_from_dir dir w = (Raise x', w')) /\
  (forall job_files acc entry,
     entry ∈ job_files ->
     is_marker entry = true ->
     w_files w !! (dir, entry) = None ->
     exists x' w', build_jobs_loop dir job_files acc w = (Raise x', w')) /\
  ((forall entry,
      entry ∈ entries dir (w_files w) -> is_marker entry = true ->
      exists job, (_build_job_from_fp dir entry w).1 = Ok job) ->
   exists jobs w',
     build_jobs_from_dir dir w = (Ok jobs, w') /\
     Forall2 (fun entry job => (_build_job_from_fp dir entry w).1 = Ok job)
             (List.filter is_marker (entries dir (w_files w))) jobs).
Proof.
  intros Hdir Hl.
  assert (Hraise : forall job_files acc entry x,
    entry ∈ job_files -> is_marker entry = true ->
    (_build_job_from_fp dir entry w).1 = Raise x ->
    exists x' w', build_jobs_loop dir job_files acc w = (Raise x', w')).
  { intros job_files acc entry x Hin Hm Hb.
    destruct (build_jobs_loop_run dir job_files acc w)
      as ([jobs|x'] & w' & Hrun & _ & _ & Hr); [|eauto].
    destruct Hr as (new & _ & Hall). exfalso.
    assert (Hin' : entry ∈ List.filter is_marker job_files)
      by (apply elem_of_List_filter; auto).
    apply list_elem_of_lookup in Hin' as [i Hi].
    destruct (Forall2_lookup_l _ _ _ _ _ Hall Hi) as (job & _ & Hok).
    simpl in Hok. congruence. }
  split; [|split].
  - intros entry f x Hf Hm Hx.
    rewrite build_jobs_from_dir_present by assumption.
    apply (Hraise _ _ entry x); [apply elem_of_entries; eauto | exact Hm |].
    rewrite _build_job_from_fp_run. cbn [fst].
    replace (w_files w !! os_path_join dir entry) with (Some f) by (symmetry; exact Hf).
    rewrite Hx. reflexivity.
  - intros job_files acc entry Hin Hm Hf.
    apply (Hraise _ _ entry OSError); [exact Hin | exact Hm |].
    rewrite _build_job_from_fp_run. cbn [fst].
    replace (w_files w !! os_path_join dir entry) with (@None file) by (symmetry; exact Hf).
    reflexivity.
  - intros Hgood. rewrite build_jobs_from_dir_present by assumption.
    destruct (build_jobs_loop_run dir (entries dir (w_files w)) [] w)
      as ([jobs|x] & w' & Hrun & _ & _ & Hr).
    + destruct Hr as (new & -> & Hall). exists new, w'. split; assumption.
    + destruct Hr as (e & Hin & Hm & Hb).
      destruct (Hgood e Hin Hm) as [job Hjob]. congruence.
Qed.

(** C8, as the code has it: the tracking directory is created only when
    it is absent, so a directory that exists is no error, although
    [create_tracking_dir] itself fails on one. A creation failure is not
    caught: [OSError] leaves [build_jobs_from_dir], nothing is logged and no
    job list is returned. It is a listing failure that is logged at
    critical severity and gives the empty job list. *)
Theorem build_jobs_from_dir_directory_failures dir w :
  (dir ∈ w_dirs w ->
     create_tracking_dir dir w = (Raise OSError, w)) /\
  (dir ∈ w_dirs w -> w_listable w = true ->
     build_jobs_from_dir dir w =
     build_jobs_loop dir (entries dir (w_files w)) [] w) /\
  (dir ∉ w_dirs w -> w_writable w = false ->
     build_jobs_from_dir dir w = (Raise OSError, w)) /\
  (dir ∈ w_dirs w -> w_listable w = false ->
     build_jobs_from_dir dir w =
     (Ok [], add_event
               (Log CRITICAL "Problem reading the job-tracking directory: '%s'")
               w)).
Proof.
  split; [|split; [|split]].
  - intros Hdir. unfold create_tracking_dir, os_makedirs.
    rewrite bool_decide_eq_true_2 by exact Hdir. reflexivity.
  - apply build_jobs_from_dir_present.
  - apply build_jobs_from_dir_uncreatable.
  - apply build_jobs_from_dir_unlistable.
Qed.



End Registry.

(** ** The orchestrator *)

Section Orchestrator.

Implicit Types (w : world) (options : gmap string string).

Lemma getitem_run options key w :
  getitem options key w =
  (match options !! key with Some v => Ok v | None => Raise KeyError end, w).
Proof. unfold getitem. destruct (options !! key); reflexivity. Qed.

Lemma int_option_world options key w : (int_option options key w).2 = w.
Proof.
  unfold int_option. run. rewrite getitem_run.
  destruct (options !! key); reflexivity.
Qed.

Lemma get_uptime_seconds_world w : (get_uptime_seconds w).2 = w.
Proof.
  unfold get_uptime_seconds, open_proc_uptime, lift. run.
  destruct (w_proc_uptime w) as [content|]; [|reflexivity].
  run. destruct (first_token_float content); reflexivity.
Qed.

(** Every run of [main]: what it adds to the trace holds a shutdown only
    on the path where the machine was found idle and the billing evaluator
    answered that shutting down saves money. *)
Lemma main_run options w :
  exists evs,
    w_trace (main options w).2 = w_trace w ++ evs /\
    (Shutdown ∈ evs ->
     exists dir q jobs w1 w2 u p c m,
       options !! "JOB_TRACKING_DIR" = Some dir /\
       options !! "IDLE_QUIET_MINUTES" = Some q /\
       build_jobs_from_dir dir w = (Ok jobs, w1) /\
       is_machine_idle jobs q dir w1 = (Ok true, w2) /\
       get_uptime_seconds w2 = (Ok u, w2) /\
       int_option options "PAID_ON_BOOT_MINUTES" w2 = (Ok p, w2) /\
       int_option options "MINIMUM_PAYMENT_CHUNK_MINUTES" w2 = (Ok c, w2) /\
       int_option options "SHUTDOWN_SAFETY_MARGIN_MINUTES" w2 = (Ok m, w2) /\
       (shutdown_saves_money u p c m w2).1 = Ok true).
Proof.
  assert (Hcalm : forall w', calm w w' ->
    forall P : Prop, exists evs, w_trace w' = w_trace w ++ evs /\ (Shutdown ∈ evs -> P)).
  { intros w' (evs & Heq & Hno) P. exists evs. split; [exact Heq | tauto]. }
  unfold main. run. rewrite !getitem_run.
  destruct (options !! "JOB_TRACKING_DIR") as [dir|] eqn:Hdir;
    [|apply Hcalm, calm_refl].
  cbn iota. run.
  pose proof (build_jobs_from_dir_trace dir w) as Hscan.
  destruct (build_jobs_from_dir dir w) as [[jobs|x] w1] eqn:Hjobs;
    cbn [snd] in Hscan; [|apply Hcalm, Hscan].
  run. rewrite !getitem_run.
  destruct (options !! "IDLE_QUIET_MINUTES") as [q|] eqn:Hq;
    [|apply Hcalm, Hscan].
  cbn iota. run. rewrite !getitem_run, Hdir. cbn iota. run.
  destruct (is_machine_idle jobs q dir w1) as [r2 w2] eqn:Hidle.
  pose proof Hidle as Hidle'. apply is_machine_idle_run in Hidle' as [Hcalm2 _].
  assert (Hw2 : calm w w2) by (eapply calm_trans; [exact Hscan | exact Hcalm2]).
  destruct r2 as [[|]|x]; [|apply Hcalm, Hw2..].
  run.
  pose proof (get_uptime_seconds_world w2) as Hu.
  destruct (get_uptime_seconds w2) as [[u|x] wu] eqn:Hup; cbn [snd] in Hu;
    subst wu;
    [|apply Hcalm, Hw2].
  run.
  pose proof (int_option_world options "PAID_ON_BOOT_MINUTES" w2) as Hp.
  destruct (int_option options "PAID_ON_BOOT_MINUTES" w2) as [[p|x] wp] eqn:Hpaid;
    cbn [snd] in Hp; subst wp; [|apply Hcalm, Hw2].
  run.
  pose proof (int_option_world options "MINIMUM_PAYMENT_CHUNK_MINUTES" w2) as Hc.
  destruct (int_option options "MINIMUM_PAYMENT_CHUNK_MINUTES" w2)
    as [[c|x] wc] eqn:Hchunk;
    cbn [snd] in Hc; subst wc; [|apply Hcalm, Hw2].
  run.
  pose proof (int_option_world options "SHUTDOWN_SAFETY_MARGIN_MINUTES" w2) as Hm.
  destruct (int_option options "SHUTDOWN_SAFETY_MARGIN_MINUTES" w2)
    as [[m|x] wm] eqn:Hmargin;
    cbn [snd] in Hm; subst wm; [|apply Hcalm, Hw2].
  run.
  pose proof (shutdown_saves_money_world u p c m w2) as [_ Hcalm3].
  destruct (shutdown_saves_money u p c m w2) as [[[|]|x] w3] eqn:Hsaves;
    cbn [snd] in Hcalm3.
  - run. unfold trigger_shutdown, os_system_shutdown. cbn [snd w_trace add_event].
    destruct (calm_trans _ _ _ Hw2 Hcalm3) as (evs3 & Heq3 & _).
    exists (evs3 ++ [Log CRITICAL "Money-saving idle period reached. Shutting down.";
                     Shutdown]).
    split.
    + rewrite Heq3, <- !app_assoc. reflexivity.
    + intros _. exists dir, q, jobs, w1, w2, u, p, c, m.
      rewrite Hsaves. repeat split; assumption || reflexivity.
  - run. apply Hcalm.
    eapply calm_trans; [exact (calm_trans _ _ _ Hw2 Hcalm3) | apply calm_log].
  - apply Hcalm. exact (calm_trans _ _ _ Hw2 Hcalm3).
Qed.

(** C3: when a run of [main] calls the shutdown trigger, the idle detector
    had answered [true] and the billing evaluator had answered [true] in
    that run. *)
Theorem main_shutdown_only_when_idle_and_saving options w evs :
  w_trace (main options w).2 = w_trace w ++ evs ->
  Shutdown ∈ evs ->
  exists dir q jobs w1 w2 u p c m,
    options !! "JOB_TRACKING_DIR" = Some dir /\
    options !! "IDLE_QUIET_MINUTES" = Some q /\
    build_jobs_from_dir dir w = (Ok jobs, w1) /\
    is_machine_idle jobs q dir w1 = (Ok true, w2) /\
    get_uptime_seconds w2 = (Ok u, w2) /\
    int_option options "PAID_ON_BOOT_MINUTES" w2 = (Ok p, w2) /\
    int_option options "MINIMUM_PAYMENT_CHUNK_MINUTES" w2 = (Ok c, w2) /\
    int_option options "SHUTDOWN_SAFETY_MARGIN_MINUTES" w2 = (Ok m, w2) /\
    (shutdown_saves_money u p c m w2).1 = Ok true.
Proof.
  intros Htrace Hin.
  destruct (main_run options w) as (evs' & Heq & Himp).
  rewrite Heq in Htrace. apply app_inv_head in Htrace. subst evs'.
  exact (Himp Hin).
Qed.

End Orchestrator.

(** ** The properties on the sample worlds *)

Section Instances.

Lemma remove_timed_out_jobs_partition_witness :
  w_writable sample_world = true /\
  NoDup (map file_path sample_jobs) /\
  exists running w',
    remove_timed_out_jobs sample_jobs sample_world = (Ok running, w').
Proof.
  assert (Hw : w_writable sample_world = true) by reflexivity.
  assert (Hnd : NoDup (map file_path sample_jobs)).
  { apply (bool_decide_unpack _). vm_compute. exact I. }
  assert (Hex : forall job, job ∈ sample_jobs ->
                  is_Some (w_files sample_world !! file_path job)).
  { intros job Hin. unfold sample_jobs in Hin.
    apply elem_of_cons in Hin as [->|Hin];
      [|apply list_elem_of_singleton in Hin as ->];
      eexists; vm_compute; reflexivity. }
  split; [exact Hw|]. split; [exact Hnd|].
  destruct (remove_timed_out_jobs_partition sample_jobs sample_world Hw Hnd Hex)
    as (running & w' & Hrun & _).
  exists running, w'. exact Hrun.
Defined.

(** C4, counterexample: a job that was scanned and has removed its own
    marker since is expired like any other; [os.remove] raises [OSError]
    on it, the reaper returns no list, and the marker of the expired job
    after it in the list is still there. *)
Lemma remove_timed_out_jobs_vanished_marker :
  seconds_running finished_job >= timeout_threshold_minutes finished_job * 60 /\
  seconds_running import_job >= timeout_threshold_minutes import_job * 60 /\
  w_files sample_world !! file_path finished_job = None /\
  (remove_timed_out_jobs [finished_job; import_job] sample_world).1 =
    Raise OSError /\
  w_files (remove_timed_out_jobs [finished_job; import_job] sample_world).2
    !! file_path import_job = Some {| f_body := "1"; f_mtime := 10%Q |}.
Proof.
  split; [vm_compute; discriminate|]. split; [vm_compute; discriminate|].
  vm_compute. repeat split; reflexivity.
Qed.

(** On the sample jobs the reaper keeps [backup] and deletes the marker of
    [import]. *)
Example remove_timed_out_jobs_sample :
  let '(r, w') := remove_timed_out_jobs sample_jobs sample_world in
  r = Ok [ {| name := "backup"; seconds_running := 30;
              timeout_threshold_minutes := 5;
              file_path := os_path_join sample_dir "backup.log" |} ] /\
  w_files w' !! os_path_join sample_dir "import.log" = None /\
  w_files w' !! os_path_join sample_dir "backup.log" =
    Some {| f_body := "5"; f_mtime := 100%Q |}.
Proof. vm_compute. repeat split; reflexivity. Qed.

Lemma is_machine_idle_true_only_after_quiet_period_witness :
  is_machine_idle quiet_jobs "2" sample_dir quiet_world =
    (Ok true, (is_machine_idle quiet_jobs "2" sample_dir quiet_world).2) /\
  (exists job, job ∈ quiet_jobs /\ name job = IDLE_QUIET_JOB_NAME) /\
  (forall job, job ∈ quiet_jobs ->
     w_files (is_machine_idle quiet_jobs "2" sample_dir quiet_world).2
       !! file_path job = None).
Proof.
  assert (Hrun : is_machine_idle quiet_jobs "2" sample_dir quiet_world =
    (Ok true, (is_machine_idle quiet_jobs "2" sample_dir quiet_world).2)).
  { vm_compute. reflexivity. }
  split; [exact Hrun|].
  destruct (is_machine_idle_true_only_after_quiet_period _ _ _ _ _ Hrun)
    as (Htimer & _ & Hgone & _).
  split; [exact Htimer | exact Hgone].
Defined.



(** Two cycles with zero quiet minutes: the first call starts the quiet
    period, the next one, at the same clock, finds the machine idle. *)
Example zero_quiet_minutes_two_cycles :
  let '(r1, w1) := main (<["IDLE_QUIET_MINUTES" := "0"]> DEFAULTS)
                     (mk_world [] [] 10%Q (Some "30.5 12.0")) in
  let '(jobs, _) := build_jobs_from_dir sample_dir w1 in
  r1 = Ok tt /\
  jobs = Ok [ {| name := "_idle_quiet_timer"; seconds_running := 0;
                 timeout_threshold_minutes := 0;
                 file_path := quiet_timer_path sample_dir |} ] /\
  (is_machine_idle [] "0" sample_dir (mk_world [sample_dir] [] 10%Q None)).1
    = Ok false /\
  match jobs with
  | Ok jobs => (is_machine_idle jobs "0" sample_dir w1).1 = Ok true
  | Raise _ => False
  end.
Proof. vm_compute. repeat split; reflexivity. Qed.

Lemma main_shutdown_only_when_idle_and_saving_witness :
  w_trace (main DEFAULTS quiet_world).2 =
    w_trace quiet_world ++ quiet_run_events /\
  Shutdown ∈ quiet_run_events /\
  exists dir q jobs w1 w2 u p c m,
    DEFAULTS !! "JOB_TRACKING_DIR" = Some dir /\
    DEFAULTS !! "IDLE_QUIET_MINUTES" = Some q /\
    build_jobs_from_dir dir quiet_world = (Ok jobs, w1) /\
    is_machine_idle jobs q dir w1 = (Ok true, w2) /\
    get_uptime_seconds w2 = (Ok u, w2) /\
    int_option DEFAULTS "PAID_ON_BOOT_MINUTES" w2 = (Ok p, w2) /\
    int_option DEFAULTS "MINIMUM_PAYMENT_CHUNK_MINUTES" w2 = (Ok c, w2) /\
    int_option DEFAULTS "SHUTDOWN_SAFETY_MARGIN_MINUTES" w2 = (Ok m, w2) /\
    (shutdown_saves_money u p c m w2).1 = Ok true.
Proof.
  assert (Htrace :
    w_trace (main DEFAULTS quiet_world).2 =
      w_trace quiet_world ++ quiet_run_events).
  { vm_compute. reflexivity. }
  assert (Hin : Shutdown ∈ quiet_run_events).
  { unfold quiet_run_events.
    do 9 apply list_elem_of_further. apply list_elem_of_here. }
  split; [exact Htrace|]. split; [exact Hin|].
  exact (main_shutdown_only_when_idle_and_saving DEFAULTS quiet_world
           quiet_run_events Htrace Hin).
Defined.

(** A run that finds jobs still running, and a run that finds the machine
    idle while the prepaid hour is not used up, call no shutdown. *)
Example main_no_shutdown :
  (Shutdown ∉ w_trace (main DEFAULTS sample_world).2) /\
  (Shutdown ∉ w_trace
     (main DEFAULTS
        (mk_world [sample_dir] [marker "_idle_quiet_timer.log" "2" 10%Q]
           130%Q (Some "3300.00 10.0"))).2).
Proof.
  split; vm_compute; intros Hin;
    repeat (apply elem_of_cons in Hin as [Hin|Hin]; [discriminate|]);
    inversion Hin.
Qed.

(** C5, counterexample: next to a good marker, a marker whose first token
    is not a number is not skipped; the scan raises [ValueError] and
    returns no job, although the good marker reads. A listed marker that is
    gone when it is read raises [OSError] out of the scan loop. *)
Lemma build_jobs_from_dir_bad_marker_aborts :
  first_token_float "soon" = Raise ValueError /\
  (_build_job_from_fp sample_dir "backup.log" bad_marker_world).1 =
    Ok {| name := "backup"; seconds_running := 30;
          timeout_threshold_minutes := 5;
          file_path := os_path_join sample_dir "backup.log" |} /\
  (build_jobs_from_dir sample_dir bad_marker_world).1 = Raise ValueError /\
  (build_jobs_loop sample_dir ["gone.log"; "backup.log"] [] sample_world).1 =
    Raise OSError.
Proof. vm_compute. repeat split; reflexivity. Qed.

Lemma build_jobs_from_dir_unreadable_marker_raises_witness :
  sample_dir ∈ w_dirs bad_marker_world /\
  w_listable bad_marker_world = true /\
  exists x' w', build_jobs_from_dir sample_dir bad_marker_world = (Raise x', w').
Proof.
  assert (Hdir : sample_dir ∈ w_dirs bad_marker_world).
  { apply (bool_decide_unpack _). vm_compute. exact I. }
  assert (Hl : w_listable bad_marker_world = true) by reflexivity.
  split; [exact Hdir|]. split; [exact Hl|].
  destruct (build_jobs_from_dir_unreadable_marker_raises sample_dir
              bad_marker_world Hdir Hl) as (Hbad & _ & _).
  apply (Hbad "broken.log" {| f_body := "soon"; f_mtime := 100%Q |} ValueError).
  - vm_compute. reflexivity.
  - vm_compute. reflexivity.
  - vm_compute. reflexivity.
Defined.

(** C8, counterexample: when the tracking directory is absent and cannot
    be created, [build_jobs_from_dir] does not return the empty list; it
    raises [OSError] and logs nothing. *)
Lemma build_jobs_from_dir_creation_failure_raises :
  (sample_dir ∉ w_dirs readonly_world) /\
  create_tracking_dir sample_dir readonly_world = (Raise OSError, readonly_world) /\
  build_jobs_from_dir sample_dir readonly_world = (Raise OSError, readonly_world) /\
  w_trace (build_jobs_from_dir sample_dir readonly_world).2 = [].
Proof.
  split; [apply not_elem_of_empty|].
  vm_compute. repeat split; reflexivity.
Qed.

Lemma build_jobs_from_dir_directory_failures_witness :
  (sample_dir ∉ w_dirs readonly_world) /\
  w_writable readonly_world = false /\
  build_jobs_from_dir sample_dir readonly_world = (Raise OSError, readonly_world).
Proof.
  assert (Hdir : sample_dir ∉ w_dirs readonly_world) by apply not_elem_of_empty.
  assert (Hw : w_writable readonly_world = false) by reflexivity.
  split; [exact Hdir|]. split; [exact Hw|].
  destruct (build_jobs_from_dir_directory_failures sample_dir readonly_world)
    as (_ & _ & Hfail & _).
  exact (Hfail Hdir Hw).
Defined.



End Instances.

(** ** More on the billing evaluator *)

Section BillingWindow.

Implicit Types (u p c m : Z) (w : world).

Lemma below_2_51_finite s : 0 <= s <= 2 ^ 51 -> Z.abs s < 2 ^ 1023.
Proof.
  intros Hs. rewrite Z.abs_eq by lia.
  assert (2 ^ 51 < 2 ^ 1023) by (apply Z.pow_lt_mono_r; lia). lia.
Qed.

(** Past the two early answers, and while the uptime and one more chunk
    stay below 2^51 seconds, the evaluator is the chunk-boundary test. *)
Lemma shutdown_saves_money_chunk_check u p c m w :
  0 <= u + m * 60 ->
  u + m * 60 + 60 * c <= 2 ^ 51 ->
  p * 60 - (u + 2 * m * 60) <= 0 ->
  2 < c ->
  (shutdown_saves_money u p c m w).1 =
  Ok (60 * c - (u + m * 60) mod (60 * c) <=? m * 60).
Proof.
  intros Hs Hb Hpaid Hc.
  destruct (floor_of_truedivs (u + m * 60) c Hs ltac:(lia) Hb) as (x & Hx & Hk).
  rewrite shutdown_saves_money_run, Hx, Hk.
  destruct (Z.ltb_spec 0 (p * 60 - (u + m * 60 + m * 60))); [lia|].
  destruct (Z.leb_spec c 2); [lia|].
  replace (((u + m * 60) / (60 * c) + 1) * c * 60 - (u + m * 60))
    with (60 * c - (u + m * 60) mod (60 * c)).
  - destruct (_ <=? _); reflexivity.
  - pose proof (Z.div_mod (u + m * 60) (60 * c) ltac:(lia)) as Hdm. nia.
Qed.

Lemma shutdown_saves_money_prepaid_false u p c m w :
  Z.abs (u + m * 60) < 2 ^ 1023 ->
  0 < p * 60 - (u + 2 * m * 60) ->
  (shutdown_saves_money u p c m w).1 = Ok false.
Proof.
  intros Hb H. destruct (int_truediv_60 _ Hb) as [x Hx].
  rewrite shutdown_saves_money_run, Hx.
  destruct (Z.ltb_spec 0 (p * 60 - (u + m * 60 + m * 60))); [reflexivity | lia].
Qed.

(** X1: with chunks of more than two minutes and the prepaid time used up,
    the answer is [true] exactly in the last [margin] minutes of a chunk,
    counted on the uptime plus one margin, as long as that and one more
    chunk stay below 2^51 seconds, where the two float divisions give the
    exact number of chunks. *)
Theorem shutdown_saves_money_window u p c m w :
  0 <= u + m * 60 ->
  u + m * 60 + 60 * c <= 2 ^ 51 ->
  p * 60 - (u + 2 * m * 60) <= 0 ->
  2 < c ->
  ((shutdown_saves_money u p c m w).1 = Ok true <->
   60 * (c - m) <= (u + m * 60) mod (60 * c)).
Proof.
  intros Hs Hb Hpaid Hc. rewrite shutdown_saves_money_chunk_check by assumption.
  split.
  - intros [= H]. apply Z.leb_le in H. lia.
  - intros H. f_equal. apply Z.leb_le. lia.
Qed.

Lemma shutdown_saves_money_window_witness :
  0 <= 56 * 60 + 2 * 60 /\
  56 * 60 + 2 * 60 + 60 * 60 <= 2 ^ 51 /\
  60 * 60 - (56 * 60 + 2 * 2 * 60) <= 0 /\ 2 < 60 /\
  ((shutdown_saves_money (56 * 60) 60 60 2 empty_dir_world).1 = Ok true <->
   60 * (60 - 2) <= (56 * 60 + 2 * 60) mod (60 * 60)).
Proof.
  assert (Hb : 56 * 60 + 2 * 60 + 60 * 60 <= 2 ^ 51).
  { apply (bool_decide_unpack _). vm_compute. exact I. }
  split; [lia | split; [exact Hb | split; [lia | split; [lia|]]]].
  apply (shutdown_saves_money_window (56 * 60) 60 60 2 empty_dir_world);
    [lia | exact Hb | lia | lia].
Defined.

(** X2: with chunks of more than two minutes and no safety margin (zero
    or less) the evaluator never recommends a shutdown, as long as the
    uptime and one more chunk stay below 2^51 seconds. *)
Theorem shutdown_saves_money_without_margin u p c m w :
  0 <= u + m * 60 ->
  u + m * 60 + 60 * c <= 2 ^ 51 ->
  m <= 0 ->
  2 < c ->
  (shutdown_saves_money u p c m w).1 = Ok false.
Proof.
  intros Hs Hb Hm Hc.
  destruct (Z.lt_ge_cases 0 (p * 60 - (u + 2 * m * 60))) as [Hpaid|Hpaid].
  - apply shutdown_saves_money_prepaid_false; [|exact Hpaid].
    apply below_2_51_finite. lia.
  - rewrite shutdown_saves_money_chunk_check by lia.
    pose proof (Z.mod_pos_bound (u + m * 60) (60 * c) ltac:(lia)).
    f_equal. apply Z.leb_gt. lia.
Qed.

Lemma shutdown_saves_money_without_margin_witness :
  0 <= 59 * 60 + 59 + 0 * 60 /\
  59 * 60 + 59 + 0 * 60 + 60 * 60 <= 2 ^ 51 /\
  0 <= 0 /\ 2 < 60 /\
  (shutdown_saves_money (59 * 60 + 59) 60 60 0 empty_dir_world).1 = Ok false.
Proof.
  assert (Hb : 59 * 60 + 59 + 0 * 60 + 60 * 60 <= 2 ^ 51).
  { apply (bool_decide_unpack _). vm_compute. exact I. }
  split; [lia | split; [exact Hb | split; [lia | split; [lia|]]]].
  apply (shutdown_saves_money_without_margin (59 * 60 + 59) 60 60 0
           empty_dir_world); [lia | exact Hb | lia | lia].
Defined.

(** X3: a safety margin as long as the chunk makes the evaluator answer
    [true] as soon as the prepaid time is used up, as long as the uptime
    and one more chunk stay below 2^51 seconds. *)
Theorem shutdown_saves_money_wide_margin u p c m w :
  0 <= u + m * 60 ->
  u + m * 60 + 60 * c <= 2 ^ 51 ->
  p * 60 - (u + 2 * m * 60) <= 0 ->
  2 < c ->
  c <= m ->
  (shutdown_saves_money u p c m w).1 = Ok true.
Proof.
  intros Hs Hb Hpaid Hc Hm.
  rewrite shutdown_saves_money_chunk_check by assumption.
  pose proof (Z.mod_pos_bound (u + m * 60) (60 * c) ltac:(lia)).
  f_equal. apply Z.leb_le. lia.
Qed.

Lemma shutdown_saves_money_wide_margin_witness :
  0 <= 100 + 5 * 60 /\
  100 + 5 * 60 + 60 * 5 <= 2 ^ 51 /\
  10 * 60 - (100 + 2 * 5 * 60) <= 0 /\ 2 < 5 /\ 5 <= 5 /\
  (shutdown_saves_money 100 10 5 5 empty_dir_world).1 = Ok true.
Proof.
  assert (Hb : 100 + 5 * 60 + 60 * 5 <= 2 ^ 51).
  { apply (bool_decide_unpack _). vm_compute. exact I. }
  split; [lia | split; [exact Hb | split; [lia | split; [lia | split; [lia|]]]]].
  apply (shutdown_saves_money_wide_margin 100 10 5 5 empty_dir_world);
    [lia | exact Hb | lia | lia | lia].
Defined.

(** X4: once the prepaid time is used up, the answer repeats with the
    period of one chunk, as long as the later uptime and one more chunk
    stay below 2^51 seconds. *)
Theorem shutdown_saves_money_periodic u p c m k w :
  0 <= u + m * 60 ->
  u + k * (60 * c) + m * 60 + 60 * c <= 2 ^ 51 ->
  p * 60 - (u + 2 * m * 60) <= 0 ->
  2 < c ->
  0 <= k ->
  (shutdown_saves_money (u + k * (60 * c)) p c m w).1 =
  (shutdown_saves_money u p c m w).1.
Proof.
  intros Hs Hb Hpaid Hc Hk.
  rewrite !shutdown_saves_money_chunk_check by nia.
  replace (u + k * (60 * c) + m * 60) with (u + m * 60 + k * (60 * c)) by lia.
  rewrite Z.mod_add by lia. reflexivity.
Qed.

Lemma shutdown_saves_money_periodic_witness :
  0 <= 56 * 60 + 2 * 60 /\
  56 * 60 + 3 * (60 * 60) + 2 * 60 + 60 * 60 <= 2 ^ 51 /\
  60 * 60 - (56 * 60 + 2 * 2 * 60) <= 0 /\ 2 < 60 /\ 0 <= 3 /\
  (shutdown_saves_money (56 * 60 + 3 * (60 * 60)) 60 60 2 empty_dir_world).1 =
  (shutdown_saves_money (56 * 60) 60 60 2 empty_dir_world).1.
Proof.
  assert (Hb : 56 * 60 + 3 * (60 * 60) + 2 * 60 + 60 * 60 <= 2 ^ 51).
  { apply (bool_decide_unpack _). vm_compute. exact I. }
  split; [lia | split; [exact Hb | split; [lia | split; [lia | split; [lia|]]]]].
  apply (shutdown_saves_money_periodic (56 * 60) 60 60 2 3 empty_dir_world);
    [lia | exact Hb | lia | lia | lia].
Defined.

(** X5: with the default options (60 minutes paid on boot, chunks of 60
    minutes, a margin of 2 minutes) and an uptime of at most 2^50 seconds,
    a shutdown is recommended exactly in the two minutes that start 56
    minutes into each hour of uptime. *)
Theorem shutdown_saves_money_default_window u w :
  0 <= u <= 2 ^ 50 ->
  ((shutdown_saves_money u 60 60 2 w).1 = Ok true <->
   56 * 60 <= u mod (60 * 60) < 58 * 60).
Proof.
  intros Hu.
  assert (H51 : 2 ^ 51 = 2 * 2 ^ 50) by reflexivity.
  assert (H50 : 2 ^ 20 <= 2 ^ 50) by (apply Z.pow_le_mono_r; lia).
  destruct (Z.lt_ge_cases u (56 * 60)) as [Hearly|Hlate].
  - rewrite shutdown_saves_money_prepaid_false;
      [|apply below_2_51_finite; lia | lia].
    rewrite Z.mod_small by lia. split; [discriminate | lia].
  - rewrite shutdown_saves_money_chunk_check by lia.
    pose proof (Z.div_mod u 3600 ltac:(lia)) as Hdm.
    pose proof (Z.mod_pos_bound u 3600 ltac:(lia)) as Hb.
    pose proof (Z.div_mod (u + 2 * 60) (60 * 60) ltac:(lia)) as Hdm'.
    pose proof (Z.mod_pos_bound (u + 2 * 60) (60 * 60) ltac:(lia)) as Hb'.
    change (60 * 60) with 3600 in *. change (2 * 60) with 120 in *.
    change (56 * 60) with 3360 in *. change (58 * 60) with 3480 in *.
    split.
    + intros [= H]. apply Z.leb_le in H. lia.
    + intros H. f_equal. apply Z.leb_le. lia.
Qed.

Lemma shutdown_saves_money_default_window_witness :
  0 <= 116 * 60 + 30 <= 2 ^ 50 /\
  ((shutdown_saves_money (116 * 60 + 30) 60 60 2 empty_dir_world).1 = Ok true <->
   56 * 60 <= (116 * 60 + 30) mod (60 * 60) < 58 * 60).
Proof.
  assert (Hb : 0 <= 116 * 60 + 30 <= 2 ^ 50).
  { apply (bool_decide_unpack _). vm_compute. exact I. }
  split; [exact Hb|].
  apply (shutdown_saves_money_default_window (116 * 60 + 30) empty_dir_world Hb).
Defined.

End BillingWindow.

(** ** More on the job registry *)

Section RegistryScan.

Implicit Types (w : world) (dir entry : string).

(** What a successful read of a marker says of the job. *)
Lemma _build_job_from_fp_ok dir entry w job :
  (_build_job_from_fp dir entry w).1 = Ok job ->
  exists f t,
    w_files w !! os_path_join dir entry = Some f /\
    first_token_float (f_body f) = Ok t /\
    int_of_float t = Ok (timeout_threshold_minutes job) /\
    name job = (splitext entry).1 /\
    seconds_running job = int_of_Q (w_now w - f_mtime f) /\
    file_path job = os_path_join dir entry.
Proof.
  rewrite _build_job_from_fp_run. cbn [fst].
  destruct (w_files w !! os_path_join dir entry) as [f|]; [|discriminate].
  destruct (first_token_float (f_body f)) as [t|] eqn:Ht; [|discriminate].
  cbn [result_bind].
  destruct (int_of_float t) as [threshold|] eqn:Hth; [|discriminate].
  cbn [result_bind]. intros [= <-]. exists f, t. simpl. auto 10.
Qed.

Lemma _build_job_from_fp_files_now dir entry w w' :
  w_files w' = w_files w -> w_now w' = w_now w ->
  (_build_job_from_fp dir entry w').1 = (_build_job_from_fp dir entry w).1.
Proof.
  intros Hf Hn. rewrite !_build_job_from_fp_run. cbn [fst].
  rewrite Hf, Hn. reflexivity.
Qed.

(** The scan changes nothing but the set of directories, to which it may
    add the tracking directory, and the trace. *)
Lemma build_jobs_from_dir_system dir w r w' :
  build_jobs_from_dir dir w = (r, w') ->
  w_files w' = w_files w /\ w_writable w' = w_writable w /\
  w_listable w' = w_listable w /\ w_now w' = w_now w /\
  w_proc_uptime w' = w_proc_uptime w /\
  (w_dirs w' = w_dirs w \/
   ((dir ∉ w_dirs w) /\ w_dirs w' = makedirs_dirs dir (w_dirs w))) /\
  (forall jobs, r = Ok jobs -> dir ∈ w_dirs w').
Proof.
  destruct (decide (dir ∈ w_dirs w)) as [Hdir|Hdir];
    [|destruct (w_writable w) eqn:Hw]; destruct (w_listable w) eqn:Hl.
  - rewrite build_jobs_from_dir_present by assumption.
    destruct (build_jobs_loop_run dir (entries dir (w_files w)) [] w)
      as (r0 & w0 & -> & (Hd & Hf & Hwr & Hli & Hn & Hu) & _).
    intros [= <- <-]. rewrite Hd. repeat split; auto; congruence.
  - rewrite build_jobs_from_dir_unlistable by assumption.
    intros [= <- <-]. simpl. repeat split; auto.
  - rewrite build_jobs_from_dir_created by assumption.
    destruct (build_jobs_loop_run dir (entries dir (w_files w)) []
                (set_dirs (makedirs_dirs dir (w_dirs w)) w))
      as (r0 & w0 & -> & (Hd & Hf & Hwr & Hli & Hn & Hu) & _).
    intros [= <- <-]. simpl in *. rewrite Hd.
    repeat split; auto; try congruence.
    intros _ _. apply elem_of_makedirs_dirs. auto.
  - rewrite build_jobs_from_dir_created_unlistable by assumption.
    intros [= <- <-]. simpl. repeat split; auto.
    intros _ _. apply elem_of_makedirs_dirs. auto.
  - rewrite build_jobs_from_dir_uncreatable by assumption.
    intros [= <- <-]. repeat split; auto. discriminate.
  - rewrite build_jobs_from_dir_uncreatable by assumption.
    intros [= <- <-]. repeat split; auto. discriminate.
Qed.

(** The jobs of a completed scan are the readings of the markers of the
    directory, in listing order, unless the directory could not be
    listed. *)
Lemma build_jobs_from_dir_reads dir w jobs w' :
  build_jobs_from_dir dir w = (Ok jobs, w') ->
  (w_listable w = false /\ jobs = []) \/
  (w_listable w = true /\
   Forall2 (fun e job => (_build_job_from_fp dir e w).1 = Ok job)
           (List.filter is_marker (entries dir (w_files w))) jobs).
Proof.
  assert (Hloop : forall w0,
    w_files w0 = w_files w -> w_now w0 = w_now w ->
    build_jobs_loop dir (entries dir (w_files w)) [] w0 = (Ok jobs, w') ->
    Forall2 (fun e job => (_build_job_from_fp dir e w).1 = Ok job)
            (List.filter is_marker (entries dir (w_files w))) jobs).
  { intros w0 Hf Hn Hrun.
    destruct (build_jobs_loop_run dir (entries dir (w_files w)) [] w0)
      as (r & w1 & Hrun' & _ & _ & Hr).
    rewrite Hrun in Hrun'. injection Hrun' as <- <-.
    destruct Hr as (new & -> & Hall). simpl.
    eapply Forall2_impl; [exact Hall|]. intros e job Hb. simpl in Hb.
    rewrite <- Hb. symmetry. apply _build_job_from_fp_files_now; assumption. }
  destruct (decide (dir ∈ w_dirs w)) as [Hdir|Hdir];
    [|destruct (w_writable w) eqn:Hw]; destruct (w_listable w) eqn:Hl.
  - rewrite build_jobs_from_dir_present by assumption. intros Hrun.
    right. split; [reflexivity|]. apply (Hloop w); auto.
  - rewrite build_jobs_from_dir_unlistable by assumption. intros [= <- _]. auto.
  - rewrite build_jobs_from_dir_created by assumption. intros Hrun.
    right. split; [reflexivity|]. eapply Hloop; [| |exact Hrun]; reflexivity.
  - rewrite build_jobs_from_dir_created_unlistable by assumption.
    intros [= <- _]. auto.
  - rewrite build_jobs_from_dir_uncreatable by assumption. discriminate.
  - rewrite build_jobs_from_dir_uncreatable by assumption. discriminate.
Qed.

(** [os.makedirs] calls itself on a shorter name every time, so the
    length of the name is fuel enough. *)
Lemma length_substring n k s :
  (n + k <= String.length s)%nat ->
  String.length (String.substring n k s) = k.
Proof.
  revert n k. induction s as [|a s IH]; intros n k Hle; simpl in Hle.
  - destruct n, k; simpl; lia.
  - destruct n as [|n]; simpl.
    + destruct k as [|k]; simpl; [reflexivity|]. rewrite IH; lia.
    + apply IH. lia.
Qed.

Lemma rfind_from_bounds a s i last :
  -1 <= last < i ->
  -1 <= rfind_from a s i last < i + Z.of_nat (String.length s).
Proof.
  revert i last. induction s as [|b s IH]; intros i last Hl; simpl.
  - lia.
  - pose proof (IH (i + 1) (if Ascii.eqb b a then i else last)) as H.
    destruct (Ascii.eqb b a); lia.
Qed.

Lemma length_rstrip_slash s :
  (String.length (rstrip_slash s) <= String.length s)%nat.
Proof.
  induction s as [|a s IH]; simpl; [lia|].
  destruct (Ascii.eqb a "/" && String.eqb (rstrip_slash s) ""); simpl; lia.
Qed.

Lemma posixpath_split_length p head tail :
  posixpath_split p = (head, tail) ->
  (String.length head + String.length tail <= String.length p)%nat.
Proof.
  unfold posixpath_split. intros [= <- <-].
  pose proof (rfind_from_bounds "/" p 0 (-1) ltac:(lia)) as Hr.
  fold (rfind "/" p) in Hr.
  set (i := Z.to_nat (rfind "/" p + 1)).
  assert (Hi : (i <= String.length p)%nat) by (unfold i; lia).
  rewrite (length_substring i) by lia.
  pose proof (length_substring 0 i p ltac:(lia)) as Hh.
  pose proof (length_rstrip_slash (String.substring 0 i p)) as Hs.
  destruct (forallb_str _ _); lia.
Qed.

Lemma makedirs_parents_enough n k name (ds : gset string) :
  (String.length name <= n)%nat -> (String.length name <= k)%nat ->
  makedirs_parents n name ds = makedirs_parents k name ds.
Proof.
  assert (Hempty : forall j, makedirs_parents j "" ds = []).
  { intros [|j]; reflexivity. }
  assert (Hlen : forall t : string,
            String.eqb t "" = false -> (1 <= String.length t)%nat).
  { intros [|a t]; simpl; [discriminate | lia]. }
  revert k name. induction n as [|n IH]; intros k name Hn Hk.
  - destruct name; [|simpl in Hn; lia]. rewrite !Hempty. reflexivity.
  - destruct k as [|k].
    { destruct name; [|simpl in Hk; lia]. rewrite !Hempty. reflexivity. }
    cbn [makedirs_parents].
    destruct (posixpath_split name) as [h1 t1] eqn:H1.
    apply posixpath_split_length in H1.
    destruct (String.eqb t1 "") eqn:Ht1.
    + destruct (posixpath_split h1) as [h2 t2] eqn:H2.
      apply posixpath_split_length in H2.
      destruct (String.eqb h2 ""); [reflexivity|].
      destruct (String.eqb t2 "") eqn:Ht2; [reflexivity|].
      apply Hlen in Ht2. cbn [negb andb].
      destruct (bool_decide (h2 ∈ ds)); [reflexivity|]. cbn [negb].
      f_equal. apply IH; lia.
    + destruct (String.eqb h1 ""); [reflexivity|].
      rewrite Ht1. apply Hlen in Ht1. cbn [negb andb].
      destruct (bool_decide (h1 ∈ ds)); [reflexivity|]. cbn [negb].
      f_equal. apply IH; lia.
Qed.

Lemma makedirs_parents_fuel n name (ds : gset string) :
  (String.length name <= n)%nat ->
  makedirs_parents n name ds =
  makedirs_parents (String.length name) name ds.
Proof. intros Hn. apply makedirs_parents_enough; [exact Hn | lia]. Qed.

(** Only missing directories are created. *)
Lemma makedirs_parents_missing n name (ds : gset string) d :
  d ∈ makedirs_parents n name ds -> d ∉ ds.
Proof.
  revert name. induction n as [|n IH]; intros name; cbn [makedirs_parents].
  - intros Hin. inversion Hin.
  - destruct (posixpath_split name) as [h1 t1].
    assert (Hstep : forall h t,
      d ∈ (if negb (String.eqb h "") && negb (String.eqb t "") &&
              negb (bool_decide (h ∈ ds))
           then makedirs_parents n h ds ++ [h] else []) -> d ∉ ds).
    { intros h t. destruct (negb (String.eqb h "") && negb (String.eqb t ""));
        cbn [andb]; [|intros Hin; inversion Hin].
      destruct (bool_decide_reflect (h ∈ ds)) as [|Hh]; cbn [negb];
        [intros Hin; inversion Hin|].
      intros Hin. apply elem_of_app in Hin as [Hin|Hin]; [exact (IH _ Hin)|].
      apply list_elem_of_singleton in Hin as ->. exact Hh. }
    destruct (String.eqb t1 "").
    + destruct (posixpath_split h1) as [h2 t2]. apply Hstep.
    + apply Hstep.
Qed.

(** For the default tracking directory on a system that has none of its
    parents, and on one that has [/tmp]. *)
Example makedirs_parents_default :
  makedirs_parents (String.length sample_dir) sample_dir ∅ = ["/"; "/tmp"] /\
  makedirs_parents (String.length sample_dir) sample_dir {["/tmp"]} = [] /\
  makedirs_parents 9 "a/b//c/d/" {["a"]} = ["a/b"; "a/b//c"].
Proof. vm_compute. repeat split; reflexivity. Qed.

(** X6: a scan never changes a file, a permission or the clock; whatever
    its outcome the only directories it may add are the tracking directory
    and the missing parents that [os.makedirs] creates on the way to it,
    and when it returns a job list the tracking directory exists. *)
Theorem build_jobs_from_dir_read_only dir w r w' :
  build_jobs_from_dir dir w = (r, w') ->
  w_files w' = w_files w /\
  w_writable w' = w_writable w /\ w_listable w' = w_listable w /\
  w_now w' = w_now w /\
  (forall d, d ∈ w_dirs w -> d ∈ w_dirs w') /\
  (forall d, d ∈ w_dirs w' ->
     d ∈ w_dirs w \/ d = dir \/
     d ∈ makedirs_parents (String.length dir) dir (w_dirs w)) /\
  (forall jobs, r = Ok jobs -> dir ∈ w_dirs w').
Proof.
  intros Hrun.
  apply build_jobs_from_dir_system in Hrun
    as (Hf & Hw & Hl & Hn & _ & Hdirs & Hok).
  repeat split; auto.
  - destruct Hdirs as [->|[Hnew ->]]; [auto|].
    intros d Hd. apply elem_of_makedirs_dirs. auto.
  - destruct Hdirs as [->|[Hnew ->]]; [auto|].
    intros d Hd. apply elem_of_makedirs_dirs in Hd. tauto.
Qed.

Lemma build_jobs_from_dir_read_only_witness :
  build_jobs_from_dir sample_dir (mk_world [] [] 10%Q None) =
    (Ok [], set_dirs {[sample_dir; "/"; "/tmp"]} (mk_world [] [] 10%Q None)) /\
  (forall d, d ∈ ({[sample_dir; "/"; "/tmp"]} : gset string) ->
     d ∈ (∅ : gset string) \/ d = sample_dir \/
     d ∈ makedirs_parents (String.length sample_dir) sample_dir ∅).
Proof.
  assert (Hrun : build_jobs_from_dir sample_dir (mk_world [] [] 10%Q None) =
    (Ok [], set_dirs {[sample_dir; "/"; "/tmp"]} (mk_world [] [] 10%Q None))).
  { vm_compute. reflexivity. }
  split; [exact Hrun|].
  destruct (build_jobs_from_dir_read_only _ _ _ _ Hrun)
    as (_ & _ & _ & _ & _ & Hdirs & _).
  exact Hdirs.
Defined.



End RegistryScan.

(** ** Marker names and marker texts *)

Section MarkerFiles.

Implicit Types (w : world) (dir entry : string) (s t : string) (c : ascii).

Lemma app_String c s t : String c s +:+ t = String c (s +:+ t).
Proof. reflexivity. Qed.


Lemma substring_app_prefix s t :
  String.substring 0 (String.length s) (s +:+ t) = s.
Proof.
  induction s as [|c s IH]; [destruct t; reflexivity|].
  rewrite app_String. simpl. rewrite IH. reflexivity.
Qed.




Lemma rfind_from_app c s t i last :
  rfind_from c (s +:+ t) i last =
  rfind_from c t (i + Z.of_nat (String.length s)) (rfind_from c s i last).
Proof.
  revert i last. induction s as [|d s IH]; intros i last.
  - simpl. rewrite Z.add_0_r. reflexivity.
  - rewrite app_String. cbn [rfind_from String.length]. rewrite IH.
    f_equal. lia.
Qed.

Lemma rfind_from_absent c s i last :
  existsb_str (fun d => Ascii.eqb d c) s = false ->
  rfind_from c s i last = last.
Proof.
  revert i last. induction s as [|d s IH]; intros i last; simpl; [reflexivity|].
  intros H. apply orb_false_iff in H as [Hd Hs]. rewrite Hd. apply IH, Hs.
Qed.

(** The two indices that [splitext] looks for, in an entry made of a
    name that has no separator and the extension. *)
Lemma rfind_sep_marker job_name :
  existsb_str (fun c => Ascii.eqb c "/") job_name = false ->
  rfind "/" (job_name +:+ JOB_FILE_EXTENSION) = -1.
Proof.
  intros Hsep. unfold rfind. rewrite rfind_from_app.
  rewrite (rfind_from_absent "/" job_name) by exact Hsep. reflexivity.
Qed.

Lemma rfind_dot_marker job_name :
  rfind "." (job_name +:+ JOB_FILE_EXTENSION) =
  Z.of_nat (String.length job_name).
Proof.
  unfold rfind. rewrite rfind_from_app. reflexivity.
Qed.

Lemma splitext_marker job_name :
  existsb_str (fun c => Ascii.eqb c "/") job_name = false ->
  (splitext (job_name +:+ JOB_FILE_EXTENSION)).1 =
  if existsb_str (fun c => negb (Ascii.eqb c ".")) job_name
  then job_name else job_name +:+ JOB_FILE_EXTENSION.
Proof.
  intros Hsep. unfold splitext. cbv zeta.
  rewrite rfind_sep_marker by exact Hsep. rewrite rfind_dot_marker.
  replace (-1 <? Z.of_nat (String.length job_name)) with true
    by (symmetry; apply Z.ltb_lt; lia).
  replace (Z.to_nat (-1 + 1)) with 0%nat by reflexivity.
  replace (Z.to_nat (Z.of_nat (String.length job_name) - -1 - 1))
    with (String.length job_name) by lia.
  rewrite substring_app_prefix. cbn [andb].
  destruct (existsb_str (fun c => negb (Ascii.eqb c ".")) job_name);
    [|reflexivity].
  cbn [fst]. rewrite Nat2Z.id. apply substring_app_prefix.
Qed.



(** X9: a marker whose name before the extension has only dots, or
    nothing, keeps the extension in the name of its job ([.log] gives the
    job [.log]). *)
Theorem job_name_of_dots dir dots w job :
  forallb_str (fun c => Ascii.eqb c ".") dots = true ->
  (_build_job_from_fp dir (dots +:+ JOB_FILE_EXTENSION) w).1 = Ok job ->
  name job = dots +:+ JOB_FILE_EXTENSION.
Proof.
  intros Hdots Hjob.
  assert (Hsep : existsb_str (fun c => Ascii.eqb c "/") dots = false).
  { clear Hjob. induction dots as [|c dots IH]; [reflexivity|]. simpl in *.
    apply andb_true_iff in Hdots as [Hc Hdots].
    apply Ascii.eqb_eq in Hc as ->. exact (IH Hdots). }
  assert (Hnone : existsb_str (fun c => negb (Ascii.eqb c ".")) dots = false).
  { clear Hjob Hsep. induction dots as [|c dots IH]; [reflexivity|]. simpl in *.
    apply andb_true_iff in Hdots as [Hc Hdots].
    rewrite Hc. exact (IH Hdots). }
  apply _build_job_from_fp_ok in Hjob as (_ & _ & _ & _ & _ & Hname & _).
  rewrite Hname, splitext_marker by exact Hsep. rewrite Hnone. reflexivity.
Qed.

Lemma job_name_of_dots_witness :
  forallb_str (fun c => Ascii.eqb c ".") "" = true /\
  (_build_job_from_fp sample_dir ("" +:+ JOB_FILE_EXTENSION)
     (mk_world [sample_dir] [marker ".log" "5" 100%Q] 130%Q None)).1 =
    Ok {| name := ".log"; seconds_running := 30;
          timeout_threshold_minutes := 5;
          file_path := os_path_join sample_dir ".log" |} /\
  name {| name := ".log"; seconds_running := 30;
          timeout_threshold_minutes := 5;
          file_path := os_path_join sample_dir ".log" |} =
    "" +:+ JOB_FILE_EXTENSION.
Proof.
  assert (Hdots : forallb_str (fun c => Ascii.eqb c ".") "" = true) by reflexivity.
  assert (Hjob :
    (_build_job_from_fp sample_dir ("" +:+ JOB_FILE_EXTENSION)
       (mk_world [sample_dir] [marker ".log" "5" 100%Q] 130%Q None)).1 =
    Ok {| name := ".log"; seconds_running := 30;
          timeout_threshold_minutes := 5;
          file_path := os_path_join sample_dir ".log" |}).
  { vm_compute. reflexivity. }
  split; [exact Hdots|]. split; [exact Hjob|].
  exact (job_name_of_dots sample_dir "" _ _ Hdots Hjob).
Defined.

Lemma split_from_blank s :
  forallb_str isspace s = true -> split_from "" s = [].
Proof.
  induction s as [|c s IH]; [reflexivity|]. simpl.
  intros H. apply andb_true_iff in H as [-> Hs]. exact (IH Hs).
Qed.

(** X10: a marker whose first line is empty or blank cannot be read: the
    scan of that marker raises [IndexError], whatever follows the first
    line. *)
Theorem blank_marker_raises_IndexError dir entry w f :
  w_files w !! os_path_join dir entry = Some f ->
  forallb_str isspace (readline (f_body f)) = true ->
  _build_job_from_fp dir entry w = (Raise IndexError, w).
Proof.
  intros Hf Hblank. rewrite _build_job_from_fp_run, Hf.
  unfold first_token_float, split. rewrite split_from_blank by exact Hblank.
  reflexivity.
Qed.

Lemma blank_marker_raises_IndexError_witness :
  forallb_str isspace (readline "  
5") = true /\
  _build_job_from_fp sample_dir "backup.log"
    (mk_world [sample_dir] [marker "backup.log" "  
5" 100%Q] 130%Q None)
  = (Raise IndexError,
     mk_world [sample_dir] [marker "backup.log" "  
5" 100%Q] 130%Q None).
Proof.
  assert (Hblank : forallb_str isspace (readline "  
5") = true) by reflexivity.
  split; [exact Hblank|].
  apply (blank_marker_raises_IndexError sample_dir "backup.log" _
           {| f_body := "  
5"; f_mtime := 100%Q |}).
  - vm_compute. reflexivity.
  - exact Hblank.
Defined.

Lemma float_of_string_raises tok x :
  float_of_string tok = Raise x -> x = ValueError.
Proof.
  unfold float_of_string. intros H.
  repeat case_match; congruence.
Qed.

Lemma first_token_float_raises content x :
  first_token_float content = Raise x -> x = IndexError \/ x = ValueError.
Proof.
  unfold first_token_float, first.
  destruct (split (readline content)) as [|tok toks]; simpl.
  - intros [= <-]. auto.
  - intros H. apply float_of_string_raises in H. auto.
Qed.

(** The exceptions that leave a scan. *)
Lemma build_jobs_from_dir_raises dir w x w' :
  build_jobs_from_dir dir w = (Raise x, w') ->
  x = OSError \/ x = IndexError \/ x = ValueError \/ x = OverflowError.
Proof.
  assert (Hread : forall e w0,
    (_build_job_from_fp dir e w0).1 = Raise x ->
    x = OSError \/ x = IndexError \/ x = ValueError \/ x = OverflowError).
  { intros e w0. rewrite _build_job_from_fp_run. cbn [fst].
    destruct (w_files w0 !! os_path_join dir e) as [f|]; [|intros [= <-]; auto].
    destruct (first_token_float (f_body f)) as [t|y] eqn:Ht; cbn [result_bind].
    - destruct t; cbn [int_of_float result_bind];
        [discriminate | intros [= <-]; auto | intros [= <-]; auto].
    - intros [= ->]. apply first_token_float_raises in Ht as [->| ->]; auto. }
  assert (Hloop : forall w0,
    build_jobs_loop dir (entries dir (w_files w)) [] w0 = (Raise x, w') ->
    x = OSError \/ x = IndexError \/ x = ValueError \/ x = OverflowError).
  { intros w0 Hrun.
    destruct (build_jobs_loop_run dir (entries dir (w_files w)) [] w0)
      as (r & w1 & Hrun' & _ & _ & Hr).
    rewrite Hrun in Hrun'. injection Hrun' as <- <-.
    destruct Hr as (e & _ & _ & Hb). exact (Hread e w0 Hb). }
  destruct (decide (dir ∈ w_dirs w)) as [Hdir|Hdir];
    [|destruct (w_writable w) eqn:Hw]; destruct (w_listable w) eqn:Hl.
  - rewrite build_jobs_from_dir_present by assumption. apply Hloop.
  - rewrite build_jobs_from_dir_unlistable by assumption. discriminate.
  - rewrite build_jobs_from_dir_created by assumption. apply Hloop.
  - rewrite build_jobs_from_dir_created_unlistable by assumption. discriminate.
  - rewrite build_jobs_from_dir_uncreatable by assumption. intros [= <- _]. auto.
  - rewrite build_jobs_from_dir_uncreatable by assumption. intros [= <- _]. auto.
Qed.

(** X11: the exceptions of a scan. [build_jobs_from_dir] raises nothing
    but [OSError] (the directory cannot be created, a marker has
    vanished), [IOError] (a marker cannot be opened), [IndexError] (blank
    first line of a marker), [ValueError] (first token not a number, or
    not-a-number) and [OverflowError] (an infinite timeout). *)
Theorem build_jobs_from_dir_exceptions dir w x w' :
  build_jobs_from_dir dir w = (Raise x, w') ->
  x = OSError \/ x = IOError \/ x = IndexError \/ x = ValueError \/
  x = OverflowError.
Proof.
  intros Hrun. apply build_jobs_from_dir_raises in Hrun.
  destruct Hrun as [?|[?|[?|?]]]; auto.
Qed.

Lemma build_jobs_from_dir_exceptions_witness :
  build_jobs_from_dir sample_dir bad_marker_world =
    (Raise ValueError, (build_jobs_from_dir sample_dir bad_marker_world).2) /\
  (ValueError = OSError \/ ValueError = IOError \/ ValueError = IndexError \/
   ValueError = ValueError \/ ValueError = OverflowError).
Proof.
  assert (Hrun : build_jobs_from_dir sample_dir bad_marker_world =
    (Raise ValueError, (build_jobs_from_dir sample_dir bad_marker_world).2)).
  { vm_compute. reflexivity. }
  split; [exact Hrun|].
  exact (build_jobs_from_dir_exceptions _ _ _ _ Hrun).
Defined.

End MarkerFiles.

(** ** More on the timeout reaper *)

Section ReaperEdges.

Implicit Types (jobs : list Jobs) (w : world).

(** Whatever its outcome, the deleting loop leaves a file as it was or
    deletes it, and it deletes markers of its jobs only. *)
Lemma reap_loop_frame jobs w r w' :
  reap_loop jobs w = (r, w') ->
  forall p, w_files w' !! p = w_files w !! p \/
            (w_files w' !! p = None /\ p ∈ map file_path jobs).
Proof.
  unfold reap_loop. revert w. induction jobs as [|job jobs IH]; intros w; simpl.
  - intros [= _ <-] p. auto.
  - unfold bind at 1. run. unfold os_remove at 1. cbn [w_files w_writable add_event].
    destruct (w_files w !! file_path job) as [f|] eqn:Hf;
      [destruct (w_writable w)|]; try (intros [= _ <-] p; auto).
    intros Hrun p. apply IH with (p := p) in Hrun. cbn [w_files set_files add_event] in Hrun.
    destruct Hrun as [Heq|[Hnone Hin]].
    + destruct (decide (p = file_path job)) as [->|Hne].
      * right. rewrite Heq, lookup_delete_eq.
        split; [reflexivity | apply list_elem_of_here].
      * left. rewrite Heq. apply lookup_delete_ne. congruence.
    + right. split; [exact Hnone | apply list_elem_of_further, Hin].
Qed.

(** The deleting loop fails on a job whose marker is not there. *)
Lemma reap_loop_missing jobs w job :
  job ∈ jobs ->
  w_files w !! file_path job = None ->
  exists w', reap_loop jobs w = (Raise OSError, w').
Proof.
  unfold reap_loop. revert w. induction jobs as [|job0 jobs IH]; intros w Hin Hnone.
  - inversion Hin.
  - simpl. unfold bind at 1. run. unfold os_remove at 1.
    cbn [w_files w_writable add_event].
    destruct (w_files w !! file_path job0) as [f|] eqn:Hf;
      [destruct (w_writable w)|]; try (eexists; reflexivity).
    apply elem_of_cons in Hin as [->|Hin]; [congruence|].
    apply IH; [exact Hin|]. cbn [w_files set_files add_event].
    destruct (decide (file_path job0 = file_path job)) as [Heq|Hne].
    + rewrite Heq. apply lookup_delete_eq.
    + rewrite lookup_delete_ne by exact Hne. exact Hnone.
Qed.

Lemma filter_all {A} (f : A -> bool) (l : list A) :
  (forall x, x ∈ l -> f x = true) -> List.filter f l = l.
Proof.
  induction l as [|x l IH]; intros H; simpl; [reflexivity|].
  rewrite (H x) by apply list_elem_of_here. f_equal.
  apply IH. intros y Hy. apply H, list_elem_of_further, Hy.
Qed.

Lemma filter_none {A} (f : A -> bool) (l : list A) :
  (forall x, x ∈ l -> f x = false) -> List.filter f l = [].
Proof.
  induction l as [|x l IH]; intros H; simpl; [reflexivity|].
  rewrite (H x) by apply list_elem_of_here.
  apply IH. intros y Hy. apply H, list_elem_of_further, Hy.
Qed.

(** The reaper on jobs none of which has expired. *)
Lemma remove_timed_out_jobs_all_running jobs w :
  (forall job, job ∈ jobs -> still_running job = true) ->
  exists w', remove_timed_out_jobs jobs w = (Ok jobs, w') /\ same_system w w'.
Proof.
  intros Hall. unfold remove_timed_out_jobs. cbv zeta.
  rewrite (filter_all still_running jobs Hall).
  rewrite (filter_none timed_out jobs).
  2:{ intros job Hin. rewrite still_running_timed_out, (Hall job Hin). reflexivity. }
  rewrite run_bind.
  destruct (log_loop_run jobs INFO "Job '%s' still running after %s seconds" w)
    as (w1 & -> & Hsame & _).
  exists w1. split; [reflexivity | exact Hsame].
Qed.

(** X12: whatever its outcome, also when a deletion fails half-way, the
    reaper writes no file and deletes nothing but markers of expired
    input jobs: every other file is left as it was. *)
Theorem remove_timed_out_jobs_frame jobs w r w' :
  remove_timed_out_jobs jobs w = (r, w') ->
  (forall p f, w_files w' !! p = Some f -> w_files w !! p = Some f) /\
  (forall p,
     (forall job, job ∈ jobs ->
        seconds_running job >= timeout_threshold_minutes job * 60 ->
        file_path job <> p) ->
     w_files w' !! p = w_files w !! p).
Proof.
  unfold remove_timed_out_jobs. cbv zeta. rewrite run_bind.
  destruct (log_loop_run (List.filter still_running jobs) INFO
              "Job '%s' still running after %s seconds" w)
    as (w1 & -> & (_ & Hf1 & _) & _).
  rewrite run_bind.
  destruct (reap_loop (List.filter timed_out jobs) w1) as [r2 w2] eqn:Hreap.
  pose proof (reap_loop_frame _ _ _ _ Hreap) as Hframe.
  assert (Hw' : w' = w2 -> 
    (forall p f, w_files w' !! p = Some f -> w_files w !! p = Some f) /\
    (forall p,
       (forall job, job ∈ jobs ->
          seconds_running job >= timeout_threshold_minutes job * 60 ->
          file_path job <> p) ->
       w_files w' !! p = w_files w !! p)).
  { intros ->. split.
    - intros p f Hp. destruct (Hframe p) as [Heq|[Hnone _]]; [|congruence].
      rewrite <- Hf1, <- Heq. exact Hp.
    - intros p Hp. destruct (Hframe p) as [Heq|[_ Hin]];
        [rewrite <- Hf1; exact Heq|].
      exfalso. apply list_elem_of_fmap in Hin as (job & -> & Hin).
      apply elem_of_List_filter in Hin as [Hto Hin].
      unfold timed_out in Hto. apply Z.geb_le in Hto.
      apply (Hp job Hin); [lia | reflexivity]. }
  destruct r2 as [[]|e]; rewrite ?run_mret; intros [= _ <-]; apply Hw'; reflexivity.
Qed.

Lemma remove_timed_out_jobs_frame_witness :
  remove_timed_out_jobs sample_jobs sample_world =
    ((remove_timed_out_jobs sample_jobs sample_world).1,
     (remove_timed_out_jobs sample_jobs sample_world).2) /\
  (forall p f,
     w_files (remove_timed_out_jobs sample_jobs sample_world).2 !! p = Some f ->
     w_files sample_world !! p = Some f).
Proof.
  assert (Hrun : remove_timed_out_jobs sample_jobs sample_world =
    ((remove_timed_out_jobs sample_jobs sample_world).1,
     (remove_timed_out_jobs sample_jobs sample_world).2)).
  { vm_compute. reflexivity. }
  split; [exact Hrun|].
  destruct (remove_timed_out_jobs_frame _ _ _ _ Hrun) as [Hsub _].
  exact Hsub.
Defined.

(** X13: deleting a marker is not idempotent. When the marker of an
    expired job is no longer there (the job removed it after the scan, or
    two jobs share it), the reaper raises [OSError] and returns no list. *)
Theorem remove_timed_out_jobs_missing_marker jobs w job :
  job ∈ jobs ->
  seconds_running job >= timeout_threshold_minutes job * 60 ->
  w_files w !! file_path job = None ->
  exists w', remove_timed_out_jobs jobs w = (Raise OSError, w').
Proof.
  intros Hin Hexp Hnone.
  unfold remove_timed_out_jobs. cbv zeta. rewrite run_bind.
  destruct (log_loop_run (List.filter still_running jobs) INFO
              "Job '%s' still running after %s seconds" w)
    as (w1 & -> & (_ & Hf1 & _) & _).
  rewrite run_bind.
  destruct (reap_loop_missing (List.filter timed_out jobs) w1 job) as [w2 ->].
  - apply elem_of_List_filter. split; [|exact Hin].
    unfold timed_out. apply Z.geb_le. lia.
  - rewrite Hf1. exact Hnone.
  - eexists. reflexivity.
Qed.

Lemma remove_timed_out_jobs_missing_marker_witness :
  exists w',
    remove_timed_out_jobs sample_jobs empty_dir_world = (Raise OSError, w').
Proof.
  apply (remove_timed_out_jobs_missing_marker sample_jobs empty_dir_world
           {| name := "import"; seconds_running := 120;
              timeout_threshold_minutes := 1;
              file_path := os_path_join sample_dir "import.log" |}).
  - unfold sample_jobs. apply list_elem_of_further, list_elem_of_here.
  - simpl. lia.
  - vm_compute. reflexivity.
Defined.

(** X14: on jobs none of which has expired the reaper cannot fail, not
    even on a file system that allows no deletion: it returns its input
    as it is and changes nothing but the trace. *)
Theorem remove_timed_out_jobs_nothing_expired jobs w :
  (forall job, job ∈ jobs ->
     seconds_running job < timeout_threshold_minutes job * 60) ->
  exists w', remove_timed_out_jobs jobs w = (Ok jobs, w') /\ same_system w w'.
Proof.
  intros Hall. apply remove_timed_out_jobs_all_running.
  intros job Hin. unfold still_running. apply Z.ltb_lt. auto.
Qed.

Lemma remove_timed_out_jobs_nothing_expired_witness :
  exists w',
    remove_timed_out_jobs (take 1 sample_jobs) readonly_world =
      (Ok (take 1 sample_jobs), w') /\
    same_system readonly_world w'.
Proof.
  apply (remove_timed_out_jobs_nothing_expired (take 1 sample_jobs) readonly_world).
  intros job Hin. simpl in Hin.
  apply list_elem_of_singleton in Hin as ->. simpl. lia.
Defined.

(** X15: reaping is idempotent on its result. A second run of the reaper
    on the jobs that the first run returned gives the same jobs and
    deletes nothing more. *)
Theorem remove_timed_out_jobs_idempotent jobs w running w' :
  remove_timed_out_jobs jobs w = (Ok running, w') ->
  exists w'',
    remove_timed_out_jobs running w' = (Ok running, w'') /\ same_system w' w''.
Proof.
  intros Hrun. apply remove_timed_out_jobs_run in Hrun as (_ & _ & _ & -> & _).
  apply remove_timed_out_jobs_all_running.
  intros job Hin. apply elem_of_List_filter in Hin. tauto.
Qed.

Lemma remove_timed_out_jobs_idempotent_witness :
  remove_timed_out_jobs sample_jobs sample_world =
    (Ok (take 1 sample_jobs),
     (remove_timed_out_jobs sample_jobs sample_world).2) /\
  exists w'',
    remove_timed_out_jobs (take 1 sample_jobs)
      (remove_timed_out_jobs sample_jobs sample_world).2 =
      (Ok (take 1 sample_jobs), w'').
Proof.
  assert (Hrun : remove_timed_out_jobs sample_jobs sample_world =
    (Ok (take 1 sample_jobs),
     (remove_timed_out_jobs sample_jobs sample_world).2)).
  { vm_compute. reflexivity. }
  split; [exact Hrun|].
  destruct (remove_timed_out_jobs_idempotent _ _ _ _ Hrun) as (w'' & Hagain & _).
  exists w''. exact Hagain.
Defined.

End ReaperEdges.

(** ** More on the idle detector *)

Section IdleDetectorPaths.

Implicit Types (jobs : list Jobs) (w : world).

Lemma reap_loop_setting jobs w r w' :
  reap_loop jobs w = (r, w') ->
  w_now w' = w_now w /\ w_listable w' = w_listable w /\
  w_proc_uptime w' = w_proc_uptime w.
Proof.
  unfold reap_loop. revert w. induction jobs as [|job jobs IH]; intros w; simpl.
  - intros [= _ <-]. auto.
  - unfold bind at 1. run. unfold os_remove at 1.
    cbn [w_files w_writable add_event].
    destruct (w_files w !! file_path job) as [f|];
      [destruct (w_writable w)|]; try (intros [= _ <-]; auto).
    intros Hrun. apply IH in Hrun. exact Hrun.
Qed.

(** The detector on the jobs of a scan: the reaper runs through, and the
    answer is read off the jobs. [w1] is the world that the reaper leaves
    behind. *)
Lemma is_machine_idle_after_reaping jobs q dir w :
  w_writable w = true ->
  NoDup (map file_path jobs) ->
  (forall job, job ∈ jobs -> is_Some (w_files w !! file_path job)) ->
  exists w1,
    w_files w1 = files_without (List.filter timed_out jobs) (w_files w) /\
    w_dirs w1 = w_dirs w /\ w_writable w1 = true /\ w_now w1 = w_now w /\
    is_machine_idle jobs q dir w =
    match List.filter still_running jobs with
    | _ :: _ =>
        (Ok false, add_event (Log INFO "%s jobs still running. Not idle.") w1)
    | [] =>
        if in_quiet_period jobs
        then (Ok true,
              add_event
                (Log INFO "No jobs running and quiet period ended. Idle.") w1)
        else (open_write (quiet_timer_path dir) q;; mret false)
               (add_event (Log INFO "Starting the quiet period. Not yet idle.") w1)
    end.
Proof.
  intros Hw Hnd Hex. unfold is_machine_idle. cbv zeta. rewrite run_bind.
  assert (Hfirst : exists w0,
    (if in_quiet_period jobs
     then log INFO "Previously in the quiet period" else mret ()) w = (Ok tt, w0) /\
    same_system w w0).
  { destruct (in_quiet_period jobs); eexists; (split; [reflexivity|]);
      [apply same_system_add_event | apply same_system_refl]. }
  destruct Hfirst as (w0 & -> & (Hd0 & Hf0 & Hw0 & _ & Hn0 & _)).
  rewrite run_bind.
  destruct (remove_timed_out_jobs_total jobs w0) as [w1 Hrun].
  { congruence. } { exact Hnd. }
  { intros job Hin. rewrite Hf0. auto. }
  rewrite Hrun.
  assert (Hnow : w_now w1 = w_now w0).
  { revert Hrun. unfold remove_timed_out_jobs. cbv zeta. rewrite run_bind.
    destruct (log_loop_run (List.filter still_running jobs) INFO
                "Job '%s' still running after %s seconds" w0)
      as (w2 & -> & (_ & _ & _ & _ & Hn2 & _) & _).
    rewrite run_bind.
    destruct (reap_loop (List.filter timed_out jobs) w2) as [[[]|e] w3] eqn:Hreap;
      [|discriminate].
    apply reap_loop_setting in Hreap as (Hn3 & _).
    rewrite run_mret. intros [= <-]. congruence. }
  apply remove_timed_out_jobs_run in Hrun as (Hd1 & Hw1 & _ & _ & Hf1).
  exists w1. split; [rewrite Hf1, Hf0; reflexivity|].
  split; [congruence|]. split; [congruence|]. split; [congruence|].
  destruct (List.filter still_running jobs); [|reflexivity].
  destruct (in_quiet_period jobs); reflexivity.
Qed.

Lemma in_quiet_period_false jobs :
  (forall job, job ∈ jobs -> name job <> IDLE_QUIET_JOB_NAME) ->
  in_quiet_period jobs = false.
Proof.
  intros Hnone. destruct (in_quiet_period jobs) eqn:Hq; [|reflexivity].
  apply in_quiet_period_true in Hq as (job & Hin & Hname).
  exfalso. exact (Hnone job Hin Hname).
Qed.

(** X16: while a job of the scan has not expired the detector answers
    [false]; it writes no file, so it neither starts nor restarts the
    quiet period, and it leaves the marker of every running job, a quiet
    timer still counting among them, as it was. *)
Theorem is_machine_idle_job_running jobs q dir w running_job :
  w_writable w = true ->
  NoDup (map file_path jobs) ->
  (forall job, job ∈ jobs -> is_Some (w_files w !! file_path job)) ->
  running_job ∈ jobs ->
  seconds_running running_job < timeout_threshold_minutes running_job * 60 ->
  exists w',
    is_machine_idle jobs q dir w = (Ok false, w') /\
    (forall p f, w_files w' !! p = Some f -> w_files w !! p = Some f) /\
    (forall job, job ∈ jobs ->
       seconds_running job < timeout_threshold_minutes job * 60 ->
       w_files w' !! file_path job = w_files w !! file_path job).
Proof.
  intros Hw Hnd Hex Hin Hrunning.
  destruct (is_machine_idle_after_reaping jobs q dir w Hw Hnd Hex)
    as (w1 & Hf1 & _ & _ & _ & ->).
  assert (Hne : running_job ∈ List.filter still_running jobs).
  { apply elem_of_List_filter. split; [|exact Hin].
    unfold still_running. apply Z.ltb_lt. exact Hrunning. }
  destruct (List.filter still_running jobs) as [|job0 rest]; [inversion Hne|].
  eexists. split; [reflexivity|]. cbn [w_files add_event]. rewrite Hf1. split.
  - intros p f. rewrite files_without_lookup.
    destruct (decide _); [discriminate | auto].
  - intros job Hjob Hjr. rewrite files_without_lookup.
    rewrite decide_False; [reflexivity|].
    intros Hp. apply list_elem_of_fmap in Hp as (job' & Heq & Hin').
    apply elem_of_List_filter in Hin' as [Hto Hin'].
    assert (job = job') as <- by (eapply NoDup_map_inj; eauto).
    unfold timed_out in Hto. apply Z.geb_le in Hto. lia.
Qed.

Lemma is_machine_idle_job_running_witness :
  w_writable sample_world = true /\
  NoDup (map file_path sample_jobs) /\
  exists w', is_machine_idle sample_jobs "2" sample_dir sample_world = (Ok false, w').
Proof.
  assert (Hw : w_writable sample_world = true) by reflexivity.
  assert (Hnd : NoDup (map file_path sample_jobs)).
  { apply (bool_decide_unpack _). vm_compute. exact I. }
  assert (Hex : forall job, job ∈ sample_jobs ->
                  is_Some (w_files sample_world !! file_path job)).
  { intros job Hin. unfold sample_jobs in Hin.
    apply elem_of_cons in Hin as [->|Hin];
      [|apply list_elem_of_singleton in Hin as ->];
      eexists; vm_compute; reflexivity. }
  split; [exact Hw|]. split; [exact Hnd|].
  destruct (is_machine_idle_job_running sample_jobs "2" sample_dir sample_world
              {| name := "backup"; seconds_running := 30;
                 timeout_threshold_minutes := 5;
                 file_path := os_path_join sample_dir "backup.log" |}
              Hw Hnd Hex) as (w' & Hrun & _).
  - unfold sample_jobs. apply list_elem_of_here.
  - simpl. lia.
  - exists w'. exact Hrun.
Defined.

(** X17: jobs that have all expired do not make the machine idle when
    no quiet timer is among them. The detector answers [false], deletes
    their markers and starts the quiet period: it writes the quiet-timer
    marker with the configured minutes as its text and the current clock
    as its time. *)
Theorem is_machine_idle_starts_quiet_period jobs q dir w :
  w_writable w = true ->
  dir ∈ w_dirs w ->
  NoDup (map file_path jobs) ->
  (forall job, job ∈ jobs -> is_Some (w_files w !! file_path job)) ->
  (forall job, job ∈ jobs ->
     seconds_running job >= timeout_threshold_minutes job * 60) ->
  (forall job, job ∈ jobs -> name job <> IDLE_QUIET_JOB_NAME) ->
  exists w',
    is_machine_idle jobs q dir w = (Ok false, w') /\
    w_files w' !! quiet_timer_path dir =
      Some {| f_body := q; f_mtime := w_now w |} /\
    (forall job, job ∈ jobs ->
       file_path job <> quiet_timer_path dir ->
       w_files w' !! file_path job = None).
Proof.
  intros Hw Hdir Hnd Hex Hexp Hnone.
  destruct (is_machine_idle_after_reaping jobs q dir w Hw Hnd Hex)
    as (w1 & Hf1 & Hd1 & Hw1 & Hn1 & ->).
  rewrite (filter_none still_running jobs).
  2:{ intros job Hin. unfold still_running. apply Z.ltb_ge.
      specialize (Hexp job Hin). lia. }
  rewrite (in_quiet_period_false jobs Hnone).
  rewrite (filter_all timed_out jobs) in Hf1.
  2:{ intros job Hin. unfold timed_out. apply Z.geb_le.
      specialize (Hexp job Hin). lia. }
  run. unfold open_write. cbn [w_dirs w_writable add_event].
  change (quiet_timer_path dir).1 with dir.
  rewrite Hd1, Hw1, bool_decide_eq_true_2 by exact Hdir. cbn [andb]. run.
  eexists. split; [reflexivity|]. cbn [w_files w_now set_files add_event].
  split.
  - rewrite Hn1. apply lookup_insert_eq.
  - intros job Hin Hne. rewrite lookup_insert_ne by congruence.
    rewrite Hf1, files_without_lookup. rewrite decide_True; [reflexivity|].
    apply list_elem_of_fmap. eauto.
Qed.

Lemma is_machine_idle_starts_quiet_period_witness :
  exists w',
    is_machine_idle (drop 1 sample_jobs) "2" sample_dir sample_world =
      (Ok false, w') /\
    w_files w' !! quiet_timer_path sample_dir =
      Some {| f_body := "2"; f_mtime := w_now sample_world |}.
Proof.
  destruct (is_machine_idle_starts_quiet_period (drop 1 sample_jobs) "2"
              sample_dir sample_world) as (w' & Hrun & Hmarker & _).
  - reflexivity.
  - apply (bool_decide_unpack _). vm_compute. exact I.
  - apply (bool_decide_unpack _). vm_compute. exact I.
  - intros job Hin. simpl in Hin. apply list_elem_of_singleton in Hin as ->.
    eexists. vm_compute. reflexivity.
  - intros job Hin. simpl in Hin. apply list_elem_of_singleton in Hin as ->.
    simpl. lia.
  - intros job Hin. simpl in Hin. apply list_elem_of_singleton in Hin as ->.
    simpl. discriminate.
  - exists w'. split; [exact Hrun | exact Hmarker].
Defined.

(** X18: when the quiet period is to start and the tracking directory is
    not there, the detector does not answer: writing the quiet-timer
    marker raises [IOError], after the markers of the expired jobs have
    been deleted. *)
Theorem is_machine_idle_cannot_start_quiet_period jobs q dir w :
  w_writable w = true ->
  dir ∉ w_dirs w ->
  NoDup (map file_path jobs) ->
  (forall job, job ∈ jobs -> is_Some (w_files w !! file_path job)) ->
  (forall job, job ∈ jobs ->
     seconds_running job >= timeout_threshold_minutes job * 60) ->
  (forall job, job ∈ jobs -> name job <> IDLE_QUIET_JOB_NAME) ->
  exists w',
    is_machine_idle jobs q dir w = (Raise IOError, w') /\
    (forall job, job ∈ jobs -> w_files w' !! file_path job = None).
Proof.
  intros Hw Hdir Hnd Hex Hexp Hnone.
  destruct (is_machine_idle_after_reaping jobs q dir w Hw Hnd Hex)
    as (w1 & Hf1 & Hd1 & Hw1 & Hn1 & ->).
  rewrite (filter_none still_running jobs).
  2:{ intros job Hin. unfold still_running. apply Z.ltb_ge.
      specialize (Hexp job Hin). lia. }
  rewrite (in_quiet_period_false jobs Hnone).
  rewrite (filter_all timed_out jobs) in Hf1.
  2:{ intros job Hin. unfold timed_out. apply Z.geb_le.
      specialize (Hexp job Hin). lia. }
  run. unfold open_write. cbn [w_dirs w_writable add_event].
  change (quiet_timer_path dir).1 with dir.
  rewrite Hd1, bool_decide_eq_false_2 by exact Hdir. cbn [andb].
  eexists. split; [reflexivity|]. cbn [w_files add_event].
  intros job Hin. rewrite Hf1, files_without_lookup.
  rewrite decide_True; [reflexivity|]. apply list_elem_of_fmap. eauto.
Qed.

Lemma is_machine_idle_cannot_start_quiet_period_witness :
  exists w',
    is_machine_idle [] "2" sample_dir (mk_world [] [] 10%Q None) =
      (Raise IOError, w').
Proof.
  destruct (is_machine_idle_cannot_start_quiet_period [] "2" sample_dir
              (mk_world [] [] 10%Q None)) as (w' & Hrun & _).
  - reflexivity.
  - apply not_elem_of_empty.
  - constructor.
  - intros job Hin. inversion Hin.
  - intros job Hin. inversion Hin.
  - intros job Hin. inversion Hin.
  - exists w'. exact Hrun.
Defined.

End IdleDetectorPaths.

(** ** Cycles of the script *)

Section Cycles.

Implicit Types (w : world) (options : gmap string string).

Lemma build_jobs_loop_no_marker dir (job_files : list string) w :
  (forall e, e ∈ job_files -> is_marker e = false) ->
  exists w', build_jobs_loop dir job_files [] w = (Ok [], w') /\ same_system w w'.
Proof.
  intros Hnone.
  destruct (build_jobs_loop_run dir job_files [] w)
    as ([jobs|x] & w' & Hrun & Hsame & _ & Hr).
  - destruct Hr as (new & -> & Hall).
    rewrite (filter_none is_marker job_files Hnone) in Hall.
    apply Forall2_nil_inv_l in Hall as ->. eauto.
  - destruct Hr as (e & Hin & Hm & _). rewrite (Hnone e Hin) in Hm. discriminate.
Qed.

(** The detector without any job, on a tracking directory that is there
    and writable. *)
Lemma is_machine_idle_nil q dir w :
  dir ∈ w_dirs w -> w_writable w = true ->
  exists w', is_machine_idle [] q dir w = (Ok false, w') /\
             w_files w' !! quiet_timer_path dir =
               Some {| f_body := q; f_mtime := w_now w |}.
Proof.
  intros Hdir Hw.
  destruct (is_machine_idle_after_reaping [] q dir w Hw)
    as (w1 & Hf1 & Hd1 & Hw1 & Hn1 & ->).
  { constructor. } { intros job Hin. inversion Hin. }
  cbn [List.filter in_quiet_period existsb]. run.
  unfold open_write. cbn [w_dirs w_writable add_event].
  change (quiet_timer_path dir).1 with dir.
  rewrite Hd1, Hw1, bool_decide_eq_true_2 by exact Hdir. cbn [andb]. run.
  eexists. split; [reflexivity|]. cbn [w_files w_now set_files add_event].
  rewrite Hn1. apply lookup_insert_eq.
Qed.

(** X19: the answer [true] uses the quiet period up. After a scan and a
    detector that answered [true] no marker is left in the tracking
    directory, the quiet timer included; so the next scan finds no job
    and the next answer is [false], which starts a new quiet period,
    whatever the rest of the run did with the answer. *)
Theorem idle_answer_consumes_quiet_period dir q w jobs w1 w2 :
  build_jobs_from_dir dir w = (Ok jobs, w1) ->
  is_machine_idle jobs q dir w1 = (Ok true, w2) ->
  (forall entry,
     endswith entry JOB_FILE_EXTENSION = true ->
     w_files w2 !! os_path_join dir entry = None) /\
  (forall w3 q',
     w_files w3 = w_files w2 -> dir ∈ w_dirs w3 -> w_writable w3 = true ->
     exists w4 w5,
       build_jobs_from_dir dir w3 = (Ok [], w4) /\
       is_machine_idle [] q' dir w4 = (Ok false, w5) /\
       w_files w5 !! quiet_timer_path dir =
         Some {| f_body := q'; f_mtime := w_now w3 |}).
Proof.
  intros Hscan Hidle.
  pose proof (build_jobs_from_dir_system _ _ _ _ Hscan) as (Hf1 & _).
  pose proof (build_jobs_from_dir_reads _ _ _ _ Hscan) as Hreads.
  apply is_machine_idle_run in Hidle as [_ (Hquiet & Hnil & Hf2)].
  apply filter_still_running_nil in Hnil as [Hall _]. rewrite Hall in Hf2.
  assert (Hgone : forall entry,
    is_marker entry = true -> w_files w2 !! os_path_join dir entry = None).
  { intros entry Hm. rewrite Hf2, files_without_lookup, Hf1.
    destruct (decide _) as [|Hnotin]; [reflexivity|].
    destruct (w_files w !! os_path_join dir entry) as [f|] eqn:Hf; [|exact Hf].
    exfalso. apply Hnotin.
    destruct Hreads as [[_ ->]|[_ Hforall]].
    - apply in_quiet_period_true in Hquiet as (job & Hin & _). inversion Hin.
    - assert (Hin : entry ∈ List.filter is_marker (entries dir (w_files w))).
      { apply elem_of_List_filter. split; [exact Hm|].
        apply elem_of_entries. unfold os_path_join in Hf. eauto. }
      apply list_elem_of_lookup in Hin as [i Hi].
      destruct (Forall2_lookup_l _ _ _ _ _ Hforall Hi) as (job & Hj & Hb).
      apply _build_job_from_fp_ok in Hb as (_ & _ & _ & _ & _ & _ & _ & Hpath).
      apply list_elem_of_fmap. exists job.
      split; [symmetry; exact Hpath | eapply list_elem_of_lookup_2; eauto]. }
  split; [exact Hgone|].
  intros w3 q' Hf3 Hdir3 Hw3.
  assert (Hscan3 : exists w4,
    build_jobs_from_dir dir w3 = (Ok [], w4) /\ same_system w3 w4 \/
    build_jobs_from_dir dir w3 = (Ok [], w4) /\
      w_dirs w4 = w_dirs w3 /\ w_writable w4 = w_writable w3 /\
      w_now w4 = w_now w3).
  { destruct (w_listable w3) eqn:Hl.
    - rewrite build_jobs_from_dir_present by assumption.
      destruct (build_jobs_loop_no_marker dir (entries dir (w_files w3)) w3)
        as (w4 & Hrun & Hsame).
      + intros e He. destruct (is_marker e) eqn:Hm; [|reflexivity].
        apply elem_of_entries in He as [f Hf]. rewrite Hf3 in Hf.
        pose proof (Hgone e Hm) as Hnone.
        pose proof (eq_trans (eq_sym Hf) Hnone) as Habs. discriminate Habs.
      + exists w4. left. auto.
    - rewrite build_jobs_from_dir_unlistable by assumption.
      eexists. right. split; [reflexivity|]. auto. }
  destruct Hscan3 as (w4 & [(Hrun4 & (Hd4 & _ & Hw4 & _ & Hn4 & _))
                           |(Hrun4 & Hd4 & Hw4 & Hn4)]);
    (destruct (is_machine_idle_nil q' dir w4) as (w5 & Hrun5 & Hmarker);
     [rewrite Hd4; exact Hdir3 | congruence |];
     exists w4, w5; split; [exact Hrun4|]; split; [exact Hrun5|];
     rewrite <- Hn4; exact Hmarker).
Qed.

Lemma idle_answer_consumes_quiet_period_witness :
  build_jobs_from_dir sample_dir quiet_world =
    (Ok quiet_jobs, (build_jobs_from_dir sample_dir quiet_world).2) /\
  is_machine_idle quiet_jobs "2" sample_dir
    (build_jobs_from_dir sample_dir quiet_world).2 =
    (Ok true,
     (is_machine_idle quiet_jobs "2" sample_dir
        (build_jobs_from_dir sample_dir quiet_world).2).2) /\
  (forall entry,
     endswith entry JOB_FILE_EXTENSION = true ->
     w_files (is_machine_idle quiet_jobs "2" sample_dir
                (build_jobs_from_dir sample_dir quiet_world).2).2
       !! os_path_join sample_dir entry = None).
Proof.
  assert (Hscan : build_jobs_from_dir sample_dir quiet_world =
    (Ok quiet_jobs, (build_jobs_from_dir sample_dir quiet_world).2)).
  { vm_compute. reflexivity. }
  assert (Hidle : is_machine_idle quiet_jobs "2" sample_dir
      (build_jobs_from_dir sample_dir quiet_world).2 =
    (Ok true,
     (is_machine_idle quiet_jobs "2" sample_dir
        (build_jobs_from_dir sample_dir quiet_world).2).2)).
  { vm_compute. reflexivity. }
  split; [exact Hscan|]. split; [exact Hidle|].
  destruct (idle_answer_consumes_quiet_period _ _ _ _ _ _ Hscan Hidle)
    as [Hgone _].
  exact Hgone.
Defined.

End Cycles.

(** ** Runs of the orchestrator *)

Section Runs.

Implicit Types (w : world) (options environ : gmap string string).

(** [main] after a completed scan: the answer of the detector decides
    whether the billing part runs. *)
Lemma main_steps options w dir q jobs w1 :
  options !! "JOB_TRACKING_DIR" = Some dir ->
  options !! "IDLE_QUIET_MINUTES" = Some q ->
  build_jobs_from_dir dir w = (Ok jobs, w1) ->
  main options w =
  match is_machine_idle jobs q dir w1 with
  | (Ok true, w2) =>
      (uptime_seconds ← get_uptime_seconds;
       paid_on_boot_minutes ← int_option options "PAID_ON_BOOT_MINUTES";
       payment_chunk_minutes ← int_option options "MINIMUM_PAYMENT_CHUNK_MINUTES";
       shutdown_safety_margin ← int_option options "SHUTDOWN_SAFETY_MARGIN_MINUTES";
       saves_money ← shutdown_saves_money uptime_seconds paid_on_boot_minutes
                       payment_chunk_minutes shutdown_safety_margin;
       if saves_money : bool
       then log CRITICAL "Money-saving idle period reached. Shutting down.";;
            trigger_shutdown
       else log INFO "Shutdown does not save money") w2
  | (Ok false, w2) => (Ok tt, w2)
  | (Raise x, w2) => (Raise x, w2)
  end.
Proof.
  intros Hdir Hq Hscan. unfold main. run.
  rewrite !getitem_run, Hdir. cbn iota. run. rewrite Hscan. run.
  rewrite !getitem_run, Hq. cbn iota. run.
  rewrite !getitem_run, Hdir. cbn iota. run.
  destruct (is_machine_idle jobs q dir w1) as [[[|]|x] w2]; reflexivity.
Qed.

(** X20: the converse of the shutdown guard. When the scan completes,
    the detector answers [true], the uptime and the three billing options
    can be read and the evaluator answers [true], leaving the world [w3]
    with its own logger calls, [main] logs at critical level, calls the
    shutdown trigger and returns. *)
Theorem main_shuts_down_when_idle_and_saving
    options w dir q jobs w1 w2 w3 u p c m :
  options !! "JOB_TRACKING_DIR" = Some dir ->
  options !! "IDLE_QUIET_MINUTES" = Some q ->
  build_jobs_from_dir dir w = (Ok jobs, w1) ->
  is_machine_idle jobs q dir w1 = (Ok true, w2) ->
  get_uptime_seconds w2 = (Ok u, w2) ->
  int_option options "PAID_ON_BOOT_MINUTES" w2 = (Ok p, w2) ->
  int_option options "MINIMUM_PAYMENT_CHUNK_MINUTES" w2 = (Ok c, w2) ->
  int_option options "SHUTDOWN_SAFETY_MARGIN_MINUTES" w2 = (Ok m, w2) ->
  shutdown_saves_money u p c m w2 = (Ok true, w3) ->
  main options w =
  (Ok tt,
   add_event Shutdown
     (add_event
        (Log CRITICAL "Money-saving idle period reached. Shutting down.") w3)).
Proof.
  intros Hdir Hq Hscan Hidle Hu Hp Hc Hm Hsaves.
  rewrite (main_steps options w dir q jobs w1 Hdir Hq Hscan), Hidle.
  run. rewrite Hu. run. rewrite Hp. run. rewrite Hc. run. rewrite Hm. run.
  rewrite Hsaves. run. reflexivity.
Qed.

(** X22: when the detector answers [false], [main] returns at once: the
    uptime and the billing options are not read, so a billing option that
    is no number goes unnoticed until the machine is idle. *)
Theorem main_returns_when_not_idle options w dir q jobs w1 w2 :
  options !! "JOB_TRACKING_DIR" = Some dir ->
  options !! "IDLE_QUIET_MINUTES" = Some q ->
  build_jobs_from_dir dir w = (Ok jobs, w1) ->
  is_machine_idle jobs q dir w1 = (Ok false, w2) ->
  main options w = (Ok tt, w2).
Proof.
  intros Hdir Hq Hscan Hidle.
  rewrite (main_steps options w dir q jobs w1 Hdir Hq Hscan), Hidle.
  reflexivity.
Qed.

(** X23: when the detector has answered [true] and the uptime cannot be
    read, the exception leaves [main]; no billing decision is taken and
    the world is the one the detector left. *)
Theorem main_uptime_unreadable options w dir q jobs w1 w2 x :
  options !! "JOB_TRACKING_DIR" = Some dir ->
  options !! "IDLE_QUIET_MINUTES" = Some q ->
  build_jobs_from_dir dir w = (Ok jobs, w1) ->
  is_machine_idle jobs q dir w1 = (Ok true, w2) ->
  get_uptime_seconds w2 = (Raise x, w2) ->
  main options w = (Raise x, w2).
Proof.
  intros Hdir Hq Hscan Hidle Hu.
  rewrite (main_steps options w dir q jobs w1 Hdir Hq Hscan), Hidle.
  run. rewrite Hu. reflexivity.
Qed.

Lemma main_shuts_down_when_idle_and_saving_witness :
  main DEFAULTS quiet_world =
  (Ok tt,
   add_event Shutdown
     (add_event
        (Log CRITICAL "Money-saving idle period reached. Shutting down.")
        (add_event
           (Log INFO "Only %s paid seconds left. Recommending shutdown.")
           (chunk_logged
              (is_machine_idle quiet_jobs "2" sample_dir
                 (build_jobs_from_dir sample_dir quiet_world).2).2)))).
Proof.
  apply (main_shuts_down_when_idle_and_saving DEFAULTS quiet_world sample_dir
           "2" quiet_jobs (build_jobs_from_dir sample_dir quiet_world).2
           (is_machine_idle quiet_jobs "2" sample_dir
              (build_jobs_from_dir sample_dir quiet_world).2).2
           (add_event
              (Log INFO "Only %s paid seconds left. Recommending shutdown.")
              (chunk_logged
                 (is_machine_idle quiet_jobs "2" sample_dir
                    (build_jobs_from_dir sample_dir quiet_world).2).2))
           (56 * 60) 60 60 2);
    vm_compute; reflexivity.
Defined.

Lemma main_returns_when_not_idle_witness :
  main (<["PAID_ON_BOOT_MINUTES" := "an hour"]> DEFAULTS) sample_world =
  (Ok tt,
   (is_machine_idle (rev sample_jobs) "2" sample_dir
      (build_jobs_from_dir sample_dir sample_world).2).2).
Proof.
  apply (main_returns_when_not_idle
           (<["PAID_ON_BOOT_MINUTES" := "an hour"]> DEFAULTS) sample_world
           sample_dir "2" (rev sample_jobs)
           (build_jobs_from_dir sample_dir sample_world).2);
    vm_compute; reflexivity.
Defined.

Lemma main_uptime_unreadable_witness :
  main DEFAULTS
    (mk_world [sample_dir] [marker "_idle_quiet_timer.log" "2" 10%Q] 130%Q None)
  = (Raise IOError,
     (is_machine_idle quiet_jobs "2" sample_dir
        (build_jobs_from_dir sample_dir
           (mk_world [sample_dir] [marker "_idle_quiet_timer.log" "2" 10%Q]
              130%Q None)).2).2).
Proof.
  apply (main_uptime_unreadable DEFAULTS
           (mk_world [sample_dir] [marker "_idle_quiet_timer.log" "2" 10%Q]
              130%Q None)
           sample_dir "2" quiet_jobs
           (build_jobs_from_dir sample_dir
              (mk_world [sample_dir] [marker "_idle_quiet_timer.log" "2" 10%Q]
                 130%Q None)).2);
    vm_compute; reflexivity.
Defined.

Lemma int_of_string_raises v x : int_of_string v = Raise x -> x = ValueError.
Proof.
  unfold int_of_string. intros H. repeat case_match; congruence.
Qed.

Lemma int_option_raises options key w x :
  (int_option options key w).1 = Raise x ->
  (x = KeyError /\ options !! key = None) \/ x = ValueError.
Proof.
  unfold int_option. run. rewrite getitem_run.
  destruct (options !! key) as [v|]; cbn iota.
  - unfold lift. cbn [fst]. intros H. apply int_of_string_raises in H. auto.
  - cbn [fst]. intros [= <-]. auto.
Qed.

Lemma get_uptime_seconds_raises w x :
  (get_uptime_seconds w).1 = Raise x ->
  x = IOError \/ x = IndexError \/ x = ValueError \/ x = OverflowError.
Proof.
  unfold get_uptime_seconds, open_proc_uptime, lift. run.
  destruct (w_proc_uptime w) as [content|]; [|intros [= <-]; auto].
  run. destruct (first_token_float content) as [t|y] eqn:Ht.
  - run. cbn [fst]. destruct t; cbn [int_of_float];
      [discriminate | intros [= <-]; auto | intros [= <-]; auto].
  - cbn [fst]. intros [= ->].
    apply first_token_float_raises in Ht as [->| ->]; auto.
Qed.

(** The five names that [main] looks up. *)
Lemma main_KeyError options w :
  (main options w).1 = Raise KeyError ->
  exists key, options !! key = None /\ is_Some (DEFAULTS !! key).
Proof.
  assert (Hkey : forall key, is_Some (DEFAULTS !! key) ->
            options !! key = None ->
            exists key, options !! key = None /\ is_Some (DEFAULTS !! key))
    by eauto.
  unfold main. run. rewrite !getitem_run.
  destruct (options !! "JOB_TRACKING_DIR") as [dir|] eqn:Hdir;
    [|intros _; apply (Hkey "JOB_TRACKING_DIR"); [vm_compute; eauto | exact Hdir]].
  cbn iota. run.
  destruct (build_jobs_from_dir dir w) as [[jobs|x] w1] eqn:Hjobs.
  2:{ cbn [fst]. intros [= ->].
      apply build_jobs_from_dir_raises in Hjobs.
      destruct Hjobs as [?|[?|[?|?]]]; discriminate. }
  run. rewrite !getitem_run.
  destruct (options !! "IDLE_QUIET_MINUTES") as [q|] eqn:Hq;
    [|intros _; apply (Hkey "IDLE_QUIET_MINUTES"); [vm_compute; eauto | exact Hq]].
  cbn iota. run. rewrite !getitem_run, Hdir. cbn iota. run.
  destruct (is_machine_idle jobs q dir w1) as [r2 w2] eqn:Hidle.
  apply is_machine_idle_run in Hidle as [_ Hr2].
  destruct r2 as [[|]|x]; [|discriminate|].
  2:{ cbn [fst]. intros [= ->]. destruct Hr2; discriminate. }
  run.
  pose proof (get_uptime_seconds_raises w2) as Hu.
  pose proof (get_uptime_seconds_world w2) as Hu'.
  destruct (get_uptime_seconds w2) as [[u|x] wu]; cbn [fst snd] in Hu, Hu'; subst wu.
  2:{ cbn [fst]. intros [= ->].
      destruct (Hu KeyError eq_refl) as [?|[?|[?|?]]]; discriminate. }
  run.
  assert (Hopt : forall key X (k : Z -> M X),
    is_Some (DEFAULTS !! key) ->
    ((int_option options key ≫= k) w2).1 = Raise KeyError ->
    (exists key, options !! key = None /\ is_Some (DEFAULTS !! key)) \/
    exists v, int_option options key w2 = (Ok v, w2) /\
              (k v w2).1 = Raise KeyError).
  { intros key X k Hdef. rewrite run_bind.
    pose proof (int_option_raises options key w2) as Hr.
    pose proof (int_option_world options key w2) as Hw.
    destruct (int_option options key w2) as [[v|x] wo]; cbn [fst snd] in Hr, Hw;
      subst wo.
    - intros H. right. eauto.
    - cbn [fst]. intros [= ->].
      destruct (Hr KeyError eq_refl) as [[_ Hnone]|?]; [|discriminate].
      left. eauto. }
  intros H.
  apply Hopt in H as [?|(p & _ & H)]; [assumption | | vm_compute; eauto].
  apply Hopt in H as [?|(c & _ & H)]; [assumption | | vm_compute; eauto].
  apply Hopt in H as [?|(m & _ & H)]; [assumption | | vm_compute; eauto].
  revert H. rewrite run_bind.
  pose proof (shutdown_saves_money_raises u p c m w2) as Hr.
  destruct (shutdown_saves_money u p c m w2) as [[[|]|x] w3]; cbn [fst] in Hr;
    [discriminate.. |].
  cbn [fst]. intros [= ->]. destruct (Hr KeyError eq_refl); discriminate.
Qed.

Lemma options_from_environ_lookup environ key :
  options_from_environ environ !! key =
  (fun d => default d (environ !! key)) <$> DEFAULTS !! key.
Proof.
  unfold options_from_environ. rewrite map_lookup_imap.
  destruct (DEFAULTS !! key); reflexivity.
Qed.

(** X24: [entry_point] never raises [KeyError], whatever the environment:
    the five options that [main] looks up are always there. *)
Theorem entry_point_never_KeyError environ w :
  (entry_point environ w).1 <> Raise KeyError.
Proof.
  unfold entry_point. intros H.
  apply main_KeyError in H as (key & Hnone & [d Hd]).
  rewrite options_from_environ_lookup, Hd in Hnone. discriminate.
Qed.

(** X25: [entry_point] reads the five variables named in [DEFAULTS] and
    nothing else of the environment: two environments that agree on these
    names give the same run. *)
Theorem entry_point_reads_five_variables environ environ' w :
  (forall key, is_Some (DEFAULTS !! key) -> environ !! key = environ' !! key) ->
  entry_point environ w = entry_point environ' w.
Proof.
  intros Hagree. unfold entry_point. f_equal. apply map_eq. intros key.
  rewrite !options_from_environ_lookup.
  destruct (DEFAULTS !! key) as [d|] eqn:Hd; [|reflexivity].
  simpl. rewrite (Hagree key) by eauto. reflexivity.
Qed.

Lemma entry_point_reads_five_variables_witness :
  entry_point (<["HOME" := "/root"]> ∅) quiet_world = entry_point ∅ quiet_world.
Proof.
  apply (entry_point_reads_five_variables (<["HOME" := "/root"]> ∅) ∅ quiet_world).
  intros key [d Hd]. apply lookup_insert_ne. intros <-.
  vm_compute in Hd. discriminate.
Defined.

(** X26: the options of a run. Each of the five options is the value of
    its environment variable when that is set and its default otherwise;
    the defaults are the tracking directory [/tmp/idle-tracking/], 60
    minutes paid on boot, chunks of 60 minutes, a margin of 2 minutes and
    2 quiet minutes. *)
Theorem options_from_environ_table environ key :
  options_from_environ environ !! key =
  if decide (key = "JOB_TRACKING_DIR")
  then Some (default "/tmp/idle-tracking/" (environ !! key))
  else if decide (key = "PAID_ON_BOOT_MINUTES")
  then Some (default "60" (environ !! key))
  else if decide (key = "MINIMUM_PAYMENT_CHUNK_MINUTES")
  then Some (default "60" (environ !! key))
  else if decide (key = "SHUTDOWN_SAFETY_MARGIN_MINUTES")
  then Some (default "2" (environ !! key))
  else if decide (key = "IDLE_QUIET_MINUTES")
  then Some (default "2" (environ !! key))
  else None.
Proof.
  rewrite options_from_environ_lookup. unfold DEFAULTS.
  repeat (rewrite lookup_insert; case_decide;
          [subst key; rewrite decide_True by reflexivity; reflexivity
          |rewrite decide_False by congruence]).
  rewrite lookup_empty. reflexivity.
Qed.

Lemma int_of_Q_whole v :
  (0 <= v)%Q ->
  (inject_Z (int_of_Q v) <= v)%Q /\ (v < inject_Z (int_of_Q v) + 1)%Q.
Proof.
  destruct v as [n d]. unfold Qle, Qlt, Qplus, int_of_Q, inject_Z; simpl.
  intros H0. rewrite Z.quot_div_nonneg by lia.
  pose proof (Z.mul_div_le n (Z.pos d) ltac:(lia)).
  pose proof (Z.mul_succ_div_gt n (Z.pos d) ltac:(lia)).
  split; nia.
Qed.

(** X27: the uptime in whole seconds. When the first token of
    [/proc/uptime] is a non-negative number, [get_uptime_seconds] returns
    its integer part and leaves the world as it is. *)
Theorem get_uptime_seconds_whole_seconds w content v :
  w_proc_uptime w = Some content ->
  first_token_float content = Ok (Finite v) ->
  (0 <= v)%Q ->
  exists u,
    get_uptime_seconds w = (Ok u, w) /\
    (inject_Z u <= v)%Q /\ (v < inject_Z u + 1)%Q.
Proof.
  intros Hu Hv H0. exists (int_of_Q v). split.
  - unfold get_uptime_seconds, open_proc_uptime, lift. run.
    rewrite Hu. run. rewrite Hv. run. reflexivity.
  - apply int_of_Q_whole, H0.
Qed.

Lemma get_uptime_seconds_whole_seconds_witness :
  exists u,
    get_uptime_seconds quiet_world = (Ok u, quiet_world) /\
    (inject_Z u <= 13441 # 4)%Q /\ (13441 # 4 < inject_Z u + 1)%Q.
Proof.
  apply (get_uptime_seconds_whole_seconds quiet_world "3360.25 1200.50"
           (13441 # 4)%Q).
  - reflexivity.
  - vm_compute. reflexivity.
  - unfold Qle. simpl. lia.
Defined.

(** X28: when the uptime cannot be had, [get_uptime_seconds] raises and
    returns no number: [IOError] when [/proc/uptime] cannot be opened,
    [IndexError] when its first line is blank. *)
Theorem get_uptime_seconds_unreadable w :
  (w_proc_uptime w = None -> get_uptime_seconds w = (Raise IOError, w)) /\
  (forall content,
     w_proc_uptime w = Some content ->
     forallb_str isspace (readline content) = true ->
     get_uptime_seconds w = (Raise IndexError, w)).
Proof.
  split.
  - intros Hu. unfold get_uptime_seconds, open_proc_uptime. run.
    rewrite Hu. reflexivity.
  - intros content Hu Hblank.
    unfold get_uptime_seconds, open_proc_uptime, lift. run. rewrite Hu. run.
    unfold first_token_float, split.
    rewrite split_from_blank by exact Hblank. reflexivity.
Qed.

Lemma get_uptime_seconds_unreadable_witness :
  get_uptime_seconds sample_world <> (Raise IOError, sample_world) /\
  get_uptime_seconds skewed_world = (Raise IOError, skewed_world).
Proof.
  split; [vm_compute; discriminate|].
  destruct (get_uptime_seconds_unreadable skewed_world) as [Hnone _].
  apply Hnone. reflexivity.
Defined.

(** X21: a run of [main] calls the shutdown trigger at most once, and
    the call is the last thing the run does: nothing is logged after
    it. *)
Theorem main_shutdown_is_last options w evs :
  w_trace (main options w).2 = w_trace w ++ evs ->
  Shutdown ∈ evs ->
  exists evs', evs = evs' ++ [Shutdown] /\ Shutdown ∉ evs'.
Proof.
  intros Htrace Hin.
  destruct (main_run options w) as (evs0 & Heq & Himp).
  rewrite Heq in Htrace. apply app_inv_head in Htrace. subst evs0.
  destruct (Himp Hin)
    as (dir & q & jobs & w1 & w2 & u & p & c & m &
        Hdir & Hq & Hscan & Hidle & Hu & Hp & Hc & Hm & Hsaves).
  assert (Hcalm : calm w w2).
  { eapply calm_trans.
    - pose proof (build_jobs_from_dir_trace dir w) as H1.
      rewrite Hscan in H1. exact H1.
    - apply is_machine_idle_run in Hidle as [H2 _]. exact H2. }
  destruct Hcalm as (evs2 & Heq2 & Hno2).
  revert Heq. rewrite (main_steps options w dir q jobs w1 Hdir Hq Hscan), Hidle.
  run. rewrite Hu. run. rewrite Hp. run. rewrite Hc. run. rewrite Hm. run.
  pose proof (shutdown_saves_money_world u p c m w2) as [_ Hcalm3].
  destruct (shutdown_saves_money u p c m w2) as [r w3];
    cbn [fst snd] in Hsaves, Hcalm3. subst r.
  destruct Hcalm3 as (evs3 & Heq3 & Hno3).
  run. unfold trigger_shutdown, os_system_shutdown.
  cbn [snd w_trace add_event]. rewrite Heq3, Heq2, <- !app_assoc. intros Heq.
  apply app_inv_head in Heq. subst evs.
  exists (evs2 ++ evs3 ++
          [Log CRITICAL "Money-saving idle period reached. Shutting down."]).
  split; [rewrite <- !app_assoc; reflexivity|].
  intros H. apply elem_of_app in H as [H|H]; [auto|].
  apply elem_of_app in H as [H|H]; [auto|].
  apply list_elem_of_singleton in H. discriminate.
Qed.

Lemma main_shutdown_is_last_witness :
  w_trace (main DEFAULTS quiet_world).2 =
    w_trace quiet_world ++ quiet_run_events /\
  exists evs', quiet_run_events = evs' ++ [Shutdown] /\ (Shutdown ∉ evs').
Proof.
  assert (Htrace :
    w_trace (main DEFAULTS quiet_world).2 =
      w_trace quiet_world ++ quiet_run_events).
  { vm_compute. reflexivity. }
  split; [exact Htrace|].
  apply (main_shutdown_is_last DEFAULTS quiet_world quiet_run_events Htrace).
  unfold quiet_run_events.
  do 9 apply list_elem_of_further. apply list_elem_of_here.
Defined.

End Runs.
